(** * The Elasticsearch cluster controller of navigator

    A shallow embedding of [pkg/controllers/elasticsearch/elasticsearch.go]:
    the spec validator as pure functions, and the event handlers, the sync
    dispatcher and [Run] as programs over the calls they make on the work
    queue, the lister, the cluster control and the runtime. *)

From stdpp Require Import base decidable strings list.
From Stdlib Require Import ZArith Ascii String List.

Local Open Scope string_scope.
Local Open Scope list_scope.

(** ** Errors

    Go's [error] interface has two implementations that matter here: the
    plain message built by [fmt.Errorf], and the API machinery's status
    error, whose reason [errors.IsNotFound] inspects. *)

Inductive error : Type :=
| errorString (msg : string)
| StatusError (reason : string) (msg : string).

#[global] Instance error_eq_dec : EqDecision error.
Proof. solve_decision. Defined.

Definition StatusReasonNotFound : string := "NotFound".

Definition Error (e : error) : string :=
  match e with
  | errorString msg => msg
  | StatusError _ msg => msg
  end.

(** [errors.IsNotFound] on a non-nil error. *)
Definition IsNotFound (e : error) : bool :=
  match e with
  | StatusError reason _ => String.eqb reason StatusReasonNotFound
  | errorString _ => false
  end.

(** ** The data model (package v1 and the Kubernetes object metadata) *)

Definition Time : Type := Z.

Record OwnerReference : Type := mkOwnerReference {
  ownerKind : string;
  ownerName : string;
  ownerController : option bool
}.

Record ObjectMeta : Type := mkObjectMeta {
  Name : string;
  Namespace : string;
  OwnerReferences : list OwnerReference;
  DeletionTimestamp : option Time
}.

Record ElasticsearchClusterPersistenceConfig : Type := mkPersistence {
  Enabled : bool
}.

Record ElasticsearchClusterStatefulConfig : Type := mkStatefulConfig {
  Stateful : bool;
  Persistence : ElasticsearchClusterPersistenceConfig
}.

(** [State] is a pointer in the source: [None] is the nil pointer. *)
Record ElasticsearchClusterNodePool : Type := mkNodePool {
  Roles : list string;
  State : option ElasticsearchClusterStatefulConfig
}.

(** [NodePools] is a slice of pointers: [None] is a nil entry. *)
Record ElasticsearchClusterSpec : Type := mkSpec {
  Version : string;
  NodePools : list (option ElasticsearchClusterNodePool)
}.

Record ElasticsearchCluster : Type := mkCluster {
  Meta : ObjectMeta;
  Spec : ElasticsearchClusterSpec
}.

(** A subordinate resource (deployment, stateful set, service account or
    service): its metadata, and the rest of the object, which this file only
    ever compares. *)
Record Resource : Type := mkResource {
  resMeta : ObjectMeta;
  resBody : string
}.

#[global] Instance OwnerReference_eq_dec : EqDecision OwnerReference.
Proof. solve_decision. Defined.
#[global] Instance ObjectMeta_eq_dec : EqDecision ObjectMeta.
Proof. solve_decision. Defined.
#[global] Instance Persistence_eq_dec : EqDecision ElasticsearchClusterPersistenceConfig.
Proof. solve_decision. Defined.
#[global] Instance StatefulConfig_eq_dec : EqDecision ElasticsearchClusterStatefulConfig.
Proof. solve_decision. Defined.
#[global] Instance NodePool_eq_dec : EqDecision ElasticsearchClusterNodePool.
Proof. solve_decision. Defined.
#[global] Instance Spec_eq_dec : EqDecision ElasticsearchClusterSpec.
Proof. solve_decision. Defined.
#[global] Instance Cluster_eq_dec : EqDecision ElasticsearchCluster.
Proof. solve_decision. Defined.
#[global] Instance Resource_eq_dec : EqDecision Resource.
Proof. solve_decision. Defined.

(** ** The spec validator *)

Module Validator.

(** The [switch] of [verifyNodePool]: the cases that fall through. *)
Definition known_role (role : string) : bool :=
  String.eqb role "data" || String.eqb role "client" || String.eqb role "master".

Definition invalid_role (role : string) : error :=
  errorString ("invalid role '" ++ role ++
               "' specified. must be one of 'data', 'client' or 'master'").

Definition nonstateful_persistence : error :=
  errorString "a non-stateful node pool cannot have persistence enabled".

Definition version_missing : error :=
  errorString "cluster version number must be specified".

(** The loop over [np.Roles]. *)
Fixpoint verifyRoles (roles : list string) : option error :=
  match roles with
  | [] => None
  | role :: rest =>
      if known_role role then verifyRoles rest else Some (invalid_role role)
  end.

(** What a call of the validator comes to: it returns an error or nil, or it
    panics on a nil pointer and does not return. *)
Inductive Verdict : Type :=
| Returns (err : option error)
| Panics.

(** [np] is a pointer, and [np.Roles] is read first, with no check: on a nil
    [np] the function panics. *)
Definition verifyNodePool (np : option ElasticsearchClusterNodePool) : Verdict :=
  match np with
  | None => Panics
  | Some pool =>
      match verifyRoles (Roles pool) with
      | Some err => Returns (Some err)
      | None =>
          match State pool with
          | Some st =>
              if negb (Stateful st) && Enabled (Persistence st)
              then Returns (Some nonstateful_persistence)
              else Returns None
          | None => Returns None
          end
      end
  end.

(** The loop over [c.Spec.NodePools]: it goes on while the pools are
    accepted, and ends with the first error or panic. *)
Fixpoint verifyNodePools (nps : list (option ElasticsearchClusterNodePool)) : Verdict :=
  match nps with
  | [] => Returns None
  | np :: rest =>
      match verifyNodePool np with
      | Returns None => verifyNodePools rest
      | Returns (Some err) => Returns (Some err)
      | Panics => Panics
      end
  end.

Definition verifyElasticsearchCluster (c : ElasticsearchCluster) : Verdict :=
  if String.eqb (Version (Spec c)) ""
  then Returns (Some version_missing)
  else verifyNodePools (NodePools (Spec c)).

(** *** What the specification says of the validator

    These follow the words of the specification, to be compared with the
    functions above. *)

Definition role_ok (role : string) : Prop :=
  role = "data" \/ role = "client" \/ role = "master".

Definition bad_role_pool (np : ElasticsearchClusterNodePool) : Prop :=
  exists role, In role (Roles np) /\ ~ role_ok role.

Definition nonstateful_persistent_pool (np : ElasticsearchClusterNodePool) : Prop :=
  exists st, State np = Some st /\ Stateful st = false /\
             Enabled (Persistence st) = true.

(** Every violation of a cluster, in the order of the checks. *)
Definition role_violations (roles : list string) : list error :=
  map invalid_role (List.filter (fun role => negb (known_role role)) roles).

Definition state_violations (np : ElasticsearchClusterNodePool) : list error :=
  match State np with
  | Some st =>
      if negb (Stateful st) && Enabled (Persistence st)
      then [nonstateful_persistence] else []
  | None => []
  end.

Definition pool_violations (np : ElasticsearchClusterNodePool) : list error :=
  role_violations (Roles np) ++ state_violations np.

(** A nil entry is no node pool and has no violation of its own. *)
Definition entry_violations (np : option ElasticsearchClusterNodePool) : list error :=
  match np with
  | Some pool => pool_violations pool
  | None => []
  end.

Definition cluster_violations (c : ElasticsearchCluster) : list error :=
  (if String.eqb (Version (Spec c)) "" then [version_missing] else [])
  ++ flat_map entry_violations (NodePools (Spec c)).

(** Some node pool of the cluster has the property. *)
Definition has_pool (P : ElasticsearchClusterNodePool -> Prop)
    (c : ElasticsearchCluster) : Prop :=
  exists np, In (Some np) (NodePools (Spec c)) /\ P np.

(** The three grounds for rejection the specification names. *)
Definition invalid_as_specified (c : ElasticsearchCluster) : Prop :=
  Version (Spec c) = "" \/
  has_pool bad_role_pool c \/
  has_pool nonstateful_persistent_pool c.

Definition rejects (c : ElasticsearchCluster) : Prop :=
  exists err, verifyElasticsearchCluster c = Returns (Some err).

Definition no_nil_pool (c : ElasticsearchCluster) : Prop :=
  Forall (fun np => np <> None) (NodePools (Spec c)).

End Validator.

(** ** Objects, memory and the calls the controller makes *)

(** The address of a heap-allocated [*v1.ElasticsearchCluster]. *)
Definition loc : Type := positive.

(** Memory, as far as this file reaches into it: the cluster every such
    pointer points to.  The informer hands out pointers to the objects of its
    cache, and the work queue stores them as keys, so the cluster behind a
    key is shared between the queue, the dispatcher and the cluster control. *)
Definition Heap : Type := loc -> ElasticsearchCluster.

Definition heap_update (p : loc) (c : ElasticsearchCluster) (h : Heap) : Heap :=
  fun q => if Pos.eqb q p then c else h q.

(** [es.DeletionTimestamp = &t] *)
Definition with_DeletionTimestamp (t : Time) (c : ElasticsearchCluster)
  : ElasticsearchCluster :=
  {| Meta := {| Name := Name (Meta c);
                Namespace := Namespace (Meta c);
                OwnerReferences := OwnerReferences (Meta c);
                DeletionTimestamp := Some t |};
     Spec := Spec c |}.

(** An [interface{}] value, by dynamic type: what an informer passes to an
    event handler and what the work queue holds as a key.  Subordinate
    resources are never written through their pointers here, so they are
    carried by value; [ObjTombstone] is [cache.DeletedFinalStateUnknown]. *)
Inductive Object : Type :=
| ObjString (s : string)
| ObjCluster (es : loc)
| ObjDeployment (deploy : Resource)
| ObjStatefulSet (ss : Resource)
| ObjServiceAccount (sa : Resource)
| ObjService (svc : Resource)
| ObjTombstone (key : string) (obj : Object).

#[global] Instance Object_eq_dec : EqDecision Object.
Proof.
  unfold EqDecision, Decision.
  fix go 1. intros [s|p|d|d|d|d|k o] [s'|p'|d'|d'|d'|d'|k' o'];
    try (right; discriminate).
  - destruct (decide (s = s')); [left | right]; congruence.
  - destruct (decide (p = p')); [left | right]; congruence.
  - destruct (decide (d = d')); [left | right]; congruence.
  - destruct (decide (d = d')); [left | right]; congruence.
  - destruct (decide (d = d')); [left | right]; congruence.
  - destruct (decide (d = d')); [left | right]; congruence.
  - destruct (decide (k = k')); [| right; congruence].
    destruct (go o o'); [left | right]; congruence.
Defined.

Inductive Level : Type := DebugLevel | InfoLevel | ErrorLevel.

(** The five informers [NewElasticsearch] is given. *)
Inductive Informer : Type :=
| esInformer | deployInformer | statefulSetInformer
| serviceAccountInformer | serviceInformer.

#[global] Instance Level_eq_dec : EqDecision Level.
Proof. solve_decision. Defined.
#[global] Instance Informer_eq_dec : EqDecision Informer.
Proof. solve_decision. Defined.

(** The [cache.InformerSynced] fields of the controller, as
    [NewElasticsearch] fills them: each is the [HasSynced] of one informer. *)
Definition esListerSynced : Informer := esInformer.
Definition deployListerSynced : Informer := deployInformer.
Definition statefulSetListerSynced : Informer := statefulSetInformer.
Definition serviceAccountListerSynced : Informer := serviceAccountInformer.
Definition serviceListerSynced : Informer := serviceInformer.

(** The calls on collaborators, indexed by what they return: the work queue
    ([workqueue.RateLimitingInterface]), the cluster lister, the cluster
    control, the clock, the loggers, the cache barrier, the [go] statement
    that starts a worker and the receive on the stop channel.  Log calls
    keep their format string; the arguments are not rendered. *)
Inductive Call : Type -> Type :=
| queue_Get : Call (Object * bool)
| queue_Done (key : Object) : Call unit
| queue_Add (key : Object) : Call unit
| queue_AddRateLimited (key : Object) : Call unit
| queue_Forget (key : Object) : Call unit
| queue_ShutDown : Call unit
| esLister_Get (namespace name : string) : Call (loc + error)
| SyncElasticsearchCluster (es : loc) : Call (option error)
| time_Now : Call Time
| logrus (lvl : Level) (format : string) : Call unit
| HandleError (err : error) : Call unit
| WaitForCacheSync (caches : list Informer) : Call bool
| go_worker : Call unit
| recv_stopCh : Call unit.

(** A call that was made, with what it returned.  A call of the cluster
    control also records the cluster its argument pointed to at that moment. *)
Inductive Event : Type :=
| EGet (key : Object) (quit : bool)
| EDone (key : Object)
| EAdd (key : Object)
| EAddRateLimited (key : Object)
| EForget (key : Object)
| EShutDown
| ELookup (namespace name : string) (res : loc + error)
| ESync (es : loc) (pointee : ElasticsearchCluster) (res : option error)
| ENow (t : Time)
| ELog (lvl : Level) (format : string)
| EHandleError (err : error)
| EWaitForCacheSync (caches : list Informer) (ok : bool)
| EGo
| EStop.

Definition event_of (h : Heap) {X : Type} (c : Call X) : X -> Event :=
  match c in Call T return T -> Event with
  | queue_Get => fun r => EGet (fst r) (snd r)
  | queue_Done key => fun _ => EDone key
  | queue_Add key => fun _ => EAdd key
  | queue_AddRateLimited key => fun _ => EAddRateLimited key
  | queue_Forget key => fun _ => EForget key
  | queue_ShutDown => fun _ => EShutDown
  | esLister_Get namespace name => fun r => ELookup namespace name r
  | SyncElasticsearchCluster es => fun r => ESync es (h es) r
  | time_Now => fun t => ENow t
  | logrus lvl format => fun _ => ELog lvl format
  | HandleError err => fun _ => EHandleError err
  | WaitForCacheSync caches => fun ok => EWaitForCacheSync caches ok
  | go_worker => fun _ => EGo
  | recv_stopCh => fun _ => EStop
  end.

(** ** Programs

    A function of the controller is a tree: it returns, makes a call and goes
    on with the answer, or reads or writes memory. *)
Inductive Prog (A : Type) : Type :=
| Ret (a : A)
| Vis {X : Type} (c : Call X) (k : X -> Prog A)
| GetHeap (k : Heap -> Prog A)
| PutHeap (h : Heap) (k : Prog A).

Arguments Ret {A} a.
Arguments Vis {A X} c k.
Arguments GetHeap {A} k.
Arguments PutHeap {A} h k.

Fixpoint bind {A B : Type} (p : Prog A) (f : A -> Prog B) : Prog B :=
  match p with
  | Ret a => f a
  | Vis c k => Vis c (fun x => bind (k x) f)
  | GetHeap k => GetHeap (fun h => bind (k h) f)
  | PutHeap h k => PutHeap h (bind k f)
  end.

Definition call {X : Type} (c : Call X) : Prog X := Vis c Ret.

Declare Scope prog_scope.
Delimit Scope prog_scope with prog.
Bind Scope prog_scope with Prog.
Notation "x <- p ;; q" := (bind p (fun x => q))
  (at level 100, p at next level, q at level 200, right associativity) : prog_scope.
Notation "p ;; q" := (bind p (fun _ => q))
  (at level 100, q at level 200, right associativity) : prog_scope.
Local Open Scope prog_scope.

(** The collaborators: every call is answered from their state, which the
    call may change; they read memory but the only writes are the
    program's own. *)
Definition Environment (S : Type) : Type :=
  forall X : Type, Call X -> Heap -> S -> X * S.

(** The outcome of running a program: its result, the memory and the
    collaborators' state it leaves, and the calls it made, in order. *)
Record Outcome (S A : Type) : Type := mkOutcome {
  result_of : A;
  heap_of : Heap;
  state_of : S;
  trace_of : list Event
}.

Arguments mkOutcome {S A} _ _ _ _.
Arguments result_of {S A} _.
Arguments heap_of {S A} _.
Arguments state_of {S A} _.
Arguments trace_of {S A} _.

Fixpoint run {S A : Type} (env : Environment S) (p : Prog A) (h : Heap) (s : S)
  : Outcome S A :=
  match p with
  | Ret a => mkOutcome a h s []
  | Vis c k =>
      let answer := env _ c h s in
      let rest := run env (k (fst answer)) h (snd answer) in
      mkOutcome (result_of rest) (heap_of rest) (state_of rest)
                (event_of h c (fst answer) :: trace_of rest)
  | GetHeap k => run env (k h) h s
  | PutHeap h' k => run env k h' s
  end.

(** ** What the file imports

    Four functions the controller calls are defined elsewhere:
    [managedOwnerRef] (same package, another file), [controllers.KeyFunc],
    client-go's [cache.SplitMetaNamespaceKey] and Go's [reflect.DeepEqual].
    They are taken as parameters.  [KeyFunc] and [DeepEqual] receive
    [interface{}] values that may hold pointers, so they read memory.
    [reflect.DeepEqual] compares more than the objects of this file carry
    (it tells a nil slice from an empty one, and it sees every field of the
    Kubernetes types), so nothing is assumed about when it answers true. *)
Class Imports : Type := {
  managedOwnerRef : ObjectMeta -> option OwnerReference;
  KeyFunc : Heap -> Object -> string + error;
  SplitMetaNamespaceKey : string -> (string * string) + error;
  DeepEqual : Heap -> Object -> Object -> bool
}.

(** Modelled from the spec: [controllers.KeyFunc] is not among the sources;
    the specification describes the key of a cluster resource as its
    namespace/name pair. *)
Definition MetaNamespaceKey (c : ElasticsearchCluster) : string :=
  Namespace (Meta c) ++ "/" ++ Name (Meta c).

Module Controller.
Section Controller.
Context {imports : Imports}.

Definition enqueueElasticsearchCluster (obj : Object) : Prog unit :=
  h <- GetHeap Ret;;
  match KeyFunc h obj with
  | inr err => call (logrus InfoLevel "Cound't get key for object %+v: %v")
  | inl key => call (queue_Add (ObjString key))
  end.

Definition enqueueElasticsearchClusterDelete (obj : Object) : Prog unit :=
  call (queue_Add obj).

Definition handleDeploy (obj : Object) : Prog unit :=
  match obj with
  | ObjDeployment deploy =>
      match managedOwnerRef (resMeta deploy) with
      | Some ownerRef =>
          call (logrus DebugLevel "getting elasticsearchcluster '%s/%s'");;
          res <- call (esLister_Get (Namespace (resMeta deploy)) (ownerName ownerRef));;
          match res with
          | inr err =>
              call (logrus InfoLevel
                      "ignoring orphaned deployment '%s' of elasticsearchcluster '%s'")
          | inl cluster => enqueueElasticsearchCluster (ObjCluster cluster)
          end
      | None => Ret tt
      end
  | _ => call (logrus ErrorLevel "error decoding deployment, invalid type")
  end.

Definition handleStatefulSet (obj : Object) : Prog unit :=
  match obj with
  | ObjStatefulSet ss =>
      match managedOwnerRef (resMeta ss) with
      | Some ownerRef =>
          res <- call (esLister_Get (Namespace (resMeta ss)) (ownerName ownerRef));;
          match res with
          | inr err =>
              call (logrus InfoLevel
                      "ignoring orphaned statefulset '%s' of elasticsearchcluster '%s'")
          | inl cluster => enqueueElasticsearchCluster (ObjCluster cluster)
          end
      | None => Ret tt
      end
  | _ => call (logrus ErrorLevel "error decoding statefulset, invalid type")
  end.

Definition handleServiceAccount (obj : Object) : Prog unit :=
  match obj with
  | ObjServiceAccount ss =>
      match managedOwnerRef (resMeta ss) with
      | Some ownerRef =>
          res <- call (esLister_Get (Namespace (resMeta ss)) (ownerName ownerRef));;
          match res with
          | inr err =>
              call (logrus InfoLevel
                      "ignoring orphaned serviceaccount '%s' of elasticsearchcluster '%s'")
          | inl cluster => enqueueElasticsearchCluster (ObjCluster cluster)
          end
      | None => Ret tt
      end
  | _ => call (logrus ErrorLevel "error decoding serviceaccount, invalid type")
  end.

Definition handleService (obj : Object) : Prog unit :=
  match obj with
  | ObjService ss =>
      match managedOwnerRef (resMeta ss) with
      | Some ownerRef =>
          res <- call (esLister_Get (Namespace (resMeta ss)) (ownerName ownerRef));;
          match res with
          | inr err =>
              call (logrus InfoLevel
                      "ignoring orphaned service '%s' of elasticsearchcluster '%s'")
          | inl cluster => enqueueElasticsearchCluster (ObjCluster cluster)
          end
      | None => Ret tt
      end
  | _ => call (logrus ErrorLevel "error decoding service, invalid type")
  end.

(** [cache.ResourceEventHandlerFuncs] *)
Record ResourceEventHandlerFuncs : Type := {
  AddFunc : Object -> Prog unit;
  UpdateFunc : Object -> Object -> Prog unit;
  DeleteFunc : Object -> Prog unit
}.

(** The handlers [NewElasticsearch] registers, by informer. *)
Definition NewElasticsearch (informer : Informer) : ResourceEventHandlerFuncs :=
  match informer with
  | esInformer =>
      {| AddFunc := enqueueElasticsearchCluster;
         UpdateFunc := fun old cur =>
           h <- GetHeap Ret;;
           if DeepEqual h old cur then Ret tt
           else enqueueElasticsearchCluster cur;
         DeleteFunc := enqueueElasticsearchClusterDelete |}
  | deployInformer =>
      {| AddFunc := handleDeploy;
         UpdateFunc := fun old cur =>
           h <- GetHeap Ret;;
           if DeepEqual h old cur then Ret tt
           else handleDeploy cur;
         DeleteFunc := fun obj => handleDeploy obj |}
  | statefulSetInformer =>
      {| AddFunc := handleStatefulSet;
         UpdateFunc := fun old new =>
           h <- GetHeap Ret;;
           if DeepEqual h old new then Ret tt
           else handleStatefulSet new;
         DeleteFunc := handleStatefulSet |}
  | serviceAccountInformer =>
      {| AddFunc := handleServiceAccount;
         UpdateFunc := fun old new =>
           h <- GetHeap Ret;;
           if DeepEqual h old new then Ret tt
           else handleServiceAccount new;
         DeleteFunc := handleServiceAccount |}
  | serviceInformer =>
      {| AddFunc := handleService;
         UpdateFunc := fun old new =>
           h <- GetHeap Ret;;
           if DeepEqual h old new then Ret tt
           else handleService new;
         DeleteFunc := handleService |}
  end.

(** [fmt.Errorf("unable to retrieve ElasticsearchCluster %v from store: %v", key, err)] *)
Definition unable_to_retrieve (key : string) (err : error) : error :=
  errorString ("unable to retrieve ElasticsearchCluster " ++ key ++
               " from store: " ++ Error err).

(** [sync]; the deferred function runs on every way out, so it is
    sequenced after the body. *)
Definition sync (key : string) : Prog (option error) :=
  startTime <- call time_Now;;
  result <-
    match SplitMetaNamespaceKey key with
    | inr err => Ret (Some err)
    | inl (namespace, name) =>
        res <- call (esLister_Get namespace name);;
        match res with
        | inr err =>
            if IsNotFound err then
              call (logrus InfoLevel "ElasticsearchCluster has been deleted %v");;
              Ret None
            else
              call (HandleError (unable_to_retrieve key err));;
              Ret (Some err)
        | inl es => call (SyncElasticsearchCluster es)
        end
    end;;
  call time_Now;;
  call (logrus InfoLevel "Finished syncing elasticsearchcluster %q (%v)");;
  Ret result.

(** [processNextWorkItem]; the deferred [Done] runs last. *)
Definition processNextWorkItem : Prog bool :=
  got <- call queue_Get;;
  let key := fst got in
  if snd got then Ret false
  else
    match key with
    | ObjString k =>
        err <- sync k;;
        match err with
        | Some _ =>
            call (logrus InfoLevel "Error syncing ElasticsearchCluster %v, requeuing: %v");;
            call (queue_AddRateLimited key)
        | None => call (queue_Forget key)
        end
    | ObjCluster es =>
        t <- call time_Now;;
        h <- GetHeap Ret;;
        PutHeap (heap_update es (with_DeletionTimestamp t (h es)) h) (Ret tt);;
        err <- call (SyncElasticsearchCluster es);;
        match err with
        | Some _ =>
            call (logrus InfoLevel "Error syncing ElasticsearchCluster %v, requeuing: %v")
        | None => Ret tt
        end;;
        call (queue_Forget key)
    | _ => Ret tt
    end;;
    call (queue_Done key);;
    Ret true.

(** The loop of [Run]: [go wait.Until(e.worker, time.Second, stopCh)],
    once for every [i] from [0] while [i < workers]. *)
Fixpoint start_workers (n : nat) : Prog unit :=
  match n with
  | O => Ret tt
  | S n' => call go_worker;; start_workers n'
  end.

(** [Run]; the deferred [ShutDown] runs last. *)
Definition Run (workers : Z) : Prog unit :=
  call (logrus InfoLevel "Starting Elasticsearch controller");;
  ok <- call (WaitForCacheSync
                [deployListerSynced; esListerSynced; statefulSetListerSynced]);;
  (if ok then Ret tt
   else call (HandleError (errorString "timed out waiting for caches to sync")));;
  start_workers (Z.to_nat workers);;
  call recv_stopCh;;
  call (logrus InfoLevel "Shutting down Elasticsearch controller");;
  call queue_ShutDown.

(** The loop of [worker]: [processNextWorkItem] again and again until it
    returns false.  [fuel] bounds the number of turns; the result tells
    whether the loop ended (true) or the turns ran out first (false). *)
Fixpoint worker_loop (fuel : nat) : Prog bool :=
  match fuel with
  | O => Ret false
  | S fuel' =>
      more <- processNextWorkItem;;
      if more then
        call (logrus InfoLevel "processed work item");;
        worker_loop fuel'
      else Ret true
  end.

(** [worker] *)
Definition worker (fuel : nat) : Prog bool :=
  call (logrus InfoLevel "start worker loop");;
  ended <- worker_loop fuel;;
  if ended then
    call (logrus InfoLevel "exiting worker loop");;
    Ret true
  else Ret false.

(** [verifyElasticsearchCluster] as the source has it, on a pointer: it reads
    the cluster behind [c] and makes no call. *)
Definition verifyElasticsearchCluster (c : loc) : Prog Validator.Verdict :=
  GetHeap (fun h => Ret (Validator.verifyElasticsearchCluster (h c))).

(** *** Reading the handlers

    The typed assertion each subordinate handler starts with, and the message
    it logs when the assertion fails. *)
Definition downcast (informer : Informer) (obj : Object) : option Resource :=
  match informer, obj with
  | deployInformer, ObjDeployment r => Some r
  | statefulSetInformer, ObjStatefulSet r => Some r
  | serviceAccountInformer, ObjServiceAccount r => Some r
  | serviceInformer, ObjService r => Some r
  | _, _ => None
  end.

Definition decoding_error (informer : Informer) : string :=
  match informer with
  | esInformer => ""
  | deployInformer => "error decoding deployment, invalid type"
  | statefulSetInformer => "error decoding statefulset, invalid type"
  | serviceAccountInformer => "error decoding serviceaccount, invalid type"
  | serviceInformer => "error decoding service, invalid type"
  end.

(** What a subordinate handler logs around the lookup of the owner: only
    [handleDeploy] announces the lookup. *)
Definition announce_lookup (informer : Informer) : list Event :=
  match informer with
  | deployInformer => [ELog DebugLevel "getting elasticsearchcluster '%s/%s'"]
  | _ => []
  end.

Definition orphan_message (informer : Informer) : string :=
  match informer with
  | esInformer => ""
  | deployInformer => "ignoring orphaned deployment '%s' of elasticsearchcluster '%s'"
  | statefulSetInformer => "ignoring orphaned statefulset '%s' of elasticsearchcluster '%s'"
  | serviceAccountInformer =>
      "ignoring orphaned serviceaccount '%s' of elasticsearchcluster '%s'"
  | serviceInformer => "ignoring orphaned service '%s' of elasticsearchcluster '%s'"
  end.

(** *** The ways through a subordinate handler

    The calls a handler of [informer] makes on [obj]: the object is not of
    the handler's type; it has no managing owner; the owner is not in the
    lister's cache; the owner is found but has no key; the owner is found and
    its key enqueued. *)
Inductive route (h : Heap) (informer : Informer) (obj : Object) : list Event -> Prop :=
| route_undecodable :
    downcast informer obj = None ->
    route h informer obj [ELog ErrorLevel (decoding_error informer)]
| route_unmanaged (r : Resource) :
    downcast informer obj = Some r ->
    managedOwnerRef (resMeta r) = None ->
    route h informer obj []
| route_orphaned (r : Resource) (ownerRef : OwnerReference) (err : error) :
    downcast informer obj = Some r ->
    managedOwnerRef (resMeta r) = Some ownerRef ->
    route h informer obj
      (announce_lookup informer ++
       [ELookup (Namespace (resMeta r)) (ownerName ownerRef) (inr err);
        ELog InfoLevel (orphan_message informer)])
| route_no_key (r : Resource) (ownerRef : OwnerReference) (es : loc) (err : error) :
    downcast informer obj = Some r ->
    managedOwnerRef (resMeta r) = Some ownerRef ->
    KeyFunc h (ObjCluster es) = inr err ->
    route h informer obj
      (announce_lookup informer ++
       [ELookup (Namespace (resMeta r)) (ownerName ownerRef) (inl es);
        ELog InfoLevel "Cound't get key for object %+v: %v"])
| route_enqueued (r : Resource) (ownerRef : OwnerReference) (es : loc) (key : string) :
    downcast informer obj = Some r ->
    managedOwnerRef (resMeta r) = Some ownerRef ->
    KeyFunc h (ObjCluster es) = inl key ->
    route h informer obj
      (announce_lookup informer ++
       [ELookup (Namespace (resMeta r)) (ownerName ownerRef) (inl es);
        EAdd (ObjString key)]).

(** *** The ways through [sync]

    What [sync key] does between its two readings of the clock, and what it
    returns: the key does not split; the lister reports the cluster gone;
    the lister fails otherwise; the cluster is found and handed to the
    cluster control. *)
Inductive sync_path (h : Heap) (key : string) : list Event -> option error -> Prop :=
| sync_malformed (err : error) :
    SplitMetaNamespaceKey key = inr err ->
    sync_path h key [] (Some err)
| sync_deleted (namespace name : string) (err : error) :
    SplitMetaNamespaceKey key = inl (namespace, name) ->
    IsNotFound err = true ->
    sync_path h key
      [ELookup namespace name (inr err);
       ELog InfoLevel "ElasticsearchCluster has been deleted %v"] None
| sync_lookup_failed (namespace name : string) (err : error) :
    SplitMetaNamespaceKey key = inl (namespace, name) ->
    IsNotFound err = false ->
    sync_path h key
      [ELookup namespace name (inr err);
       EHandleError (unable_to_retrieve key err)] (Some err)
| sync_found (namespace name : string) (es : loc) (res : option error) :
    SplitMetaNamespaceKey key = inl (namespace, name) ->
    sync_path h key
      [ELookup namespace name (inl es); ESync es (h es) res] res.

Definition finished_syncing (t : Time) : list Event :=
  [ENow t; ELog InfoLevel "Finished syncing elasticsearchcluster %q (%v)"].

End Controller.
End Controller.

(** ** Reading a trace *)

Definition is_queue_op (e : Event) : bool :=
  match e with
  | EGet _ _ | EDone _ | EAdd _ | EAddRateLimited _ | EForget _ | EShutDown => true
  | _ => false
  end.

Definition is_strategy_call (e : Event) : bool :=
  match e with
  | ESync _ _ _ => true
  | _ => false
  end.

(** The calls on the work queue, and the calls of the cluster control. *)
Definition queue_ops (tr : list Event) : list Event := List.filter is_queue_op tr.
Definition strategy_calls (tr : list Event) : list Event := List.filter is_strategy_call tr.

(** What the queue handed out, in order, each with its shutdown flag; the
    keys marked done; the calls that settle a key; the lookups. *)
Definition gets (tr : list Event) : list (Object * bool) :=
  flat_map (fun e => match e with EGet key quit => [(key, quit)] | _ => [] end) tr.

Definition dones (tr : list Event) : list Object :=
  flat_map (fun e => match e with EDone key => [key] | _ => [] end) tr.

Definition is_lookup (e : Event) : bool :=
  match e with
  | ELookup _ _ _ => true
  | _ => false
  end.

Definition lookups (tr : list Event) : list Event := List.filter is_lookup tr.

(** The keys of the items that were not the shutdown signal. *)
Definition items (got : list (Object * bool)) : list Object :=
  map fst (List.filter (fun g => negb (snd g)) got).

(** The ways a key is settled between its [Get] and its [Done]. *)
Definition settled (key : Object) (settle : list Event) : Prop :=
  settle = [] \/ settle = [EForget key] \/ settle = [EAddRateLimited key].

(** Memory after one work item: untouched, or the deletion timestamp of the
    dequeued snapshot written. *)
Definition stamped_or_same (key : Object) (h h' : Heap) : Prop :=
  h' = h \/
  exists es t, key = ObjCluster es /\
               h' = heap_update es (with_DeletionTimestamp t (h es)) h.

(** Memory [h'] differs from [h] at most in the deletion timestamps of
    clusters whose pointers are among [keys]. *)
Definition only_stamped (keys : list Object) (h h' : Heap) : Prop :=
  forall q : loc,
    h' q = h q \/
    (In (ObjCluster q) keys /\ exists t, h' q = with_DeletionTimestamp t (h q)).

(** What an event handler may do: leave memory alone, not call the cluster
    control, look a cluster up at most once and add at most one key. *)
Definition only_enqueues {S A : Type} (h : Heap) (out : Outcome S A) : Prop :=
  heap_of out = h /\
  strategy_calls (trace_of out) = [] /\
  length (lookups (trace_of out)) <= 1 /\
  (queue_ops (trace_of out) = [] \/
   exists key, queue_ops (trace_of out) = [EAdd key]).

(** Two node pools with the same [State] and the same roles up to order and
    repetition; two lists of entries that are the same up to their order,
    entry by entry in that sense. *)
Definition same_pool (np np' : ElasticsearchClusterNodePool) : Prop :=
  State np = State np' /\
  (forall role, In role (Roles np) <-> In role (Roles np')).

(** The same for entries: nil goes with nil. *)
Definition same_entry (np np' : option ElasticsearchClusterNodePool) : Prop :=
  match np, np' with
  | Some pool, Some pool' => same_pool pool pool'
  | None, None => True
  | _, _ => False
  end.

Definition same_pools (nps nps' : list (option ElasticsearchClusterNodePool)) : Prop :=
  exists reordered, Permutation nps reordered /\ Forall2 same_entry reordered nps'.

(** ** A scripted environment, for running the controller on examples *)

Module Sample.

(** The pieces of a key between its slashes. *)
Fixpoint split_slash (s : string) : list string :=
  match s with
  | EmptyString => [EmptyString]
  | String c rest =>
      if Ascii.eqb c "/"%char then EmptyString :: split_slash rest
      else match split_slash rest with
           | piece :: pieces => String c piece :: pieces
           | [] => [String c EmptyString]
           end
  end.

Definition is_controller (ref : OwnerReference) : bool :=
  String.eqb (ownerKind ref) "ElasticsearchCluster" &&
  bool_decide (ownerController ref = Some true).

Definition meta_key (m : ObjectMeta) : string := Namespace m ++ "/" ++ Name m.

(** A comparison of objects for the examples: values of different dynamic
    types differ, pointers are compared through what they point to. *)
Fixpoint deep_equal (h : Heap) (a b : Object) : bool :=
  match a, b with
  | ObjString s, ObjString s' => bool_decide (s = s')
  | ObjCluster p, ObjCluster p' => bool_decide (h p = h p')
  | ObjDeployment d, ObjDeployment d' => bool_decide (d = d')
  | ObjStatefulSet d, ObjStatefulSet d' => bool_decide (d = d')
  | ObjServiceAccount d, ObjServiceAccount d' => bool_decide (d = d')
  | ObjService d, ObjService d' => bool_decide (d = d')
  | ObjTombstone k o, ObjTombstone k' o' => bool_decide (k = k') && deep_equal h o o'
  | _, _ => false
  end.

(** One possible set of imports: the controlling owner reference of kind
    ElasticsearchCluster, namespace/name keys, keys split at the slash,
    [deep_equal]. *)
#[local] Instance imports : Imports := {|
  managedOwnerRef := fun meta => List.find is_controller (OwnerReferences meta);
  KeyFunc := fun h obj =>
    match obj with
    | ObjCluster es => inl (MetaNamespaceKey (h es))
    | ObjDeployment r | ObjStatefulSet r | ObjServiceAccount r | ObjService r =>
        inl (meta_key (resMeta r))
    | ObjTombstone key _ => inl key
    | ObjString _ => inr (errorString "object has no meta")
    end;
  SplitMetaNamespaceKey := fun key =>
    match split_slash key with
    | [name] => inl (EmptyString, name)
    | [namespace; name] => inl (namespace, name)
    | _ => inr (errorString ("unexpected key format: " ++ key))
    end;
  DeepEqual := deep_equal
|}.

(** The collaborators, scripted: what the queue hands out next, what the
    lister finds, what the cluster control answers for a cluster, the clock,
    and which informers ever report synced. *)
Record Script : Type := mkScript {
  next_item : Object * bool;
  lookup : string -> string -> loc + error;
  strategy : ElasticsearchCluster -> option error;
  clock : Time;
  synced : Informer -> bool
}.

Definition tick (s : Script) : Script :=
  {| next_item := next_item s; lookup := lookup s; strategy := strategy s;
     clock := (clock s + 1)%Z; synced := synced s |}.

(** [WaitForCacheSync] returns true once every cache it was given has
    synced, and false when the stop channel closes first. *)
Definition scripted : Environment Script := fun X c h s =>
  match c in Call T return T * Script with
  | queue_Get => (next_item s, s)
  | esLister_Get namespace name => (lookup s namespace name, s)
  | SyncElasticsearchCluster es => (strategy s (h es), s)
  | time_Now => (clock s, tick s)
  | WaitForCacheSync caches => (forallb (synced s) caches, s)
  | queue_Done _ | queue_Add _ | queue_AddRateLimited _ | queue_Forget _
  | queue_ShutDown | logrus _ _ | HandleError _ | go_worker | recv_stopCh => (tt, s)
  end.

Definition meta (namespace name : string) : ObjectMeta :=
  {| Name := name; Namespace := namespace; OwnerReferences := [];
     DeletionTimestamp := None |}.

(** Cluster ns/A: version 7.1, one stateful data pool without persistence. *)
Definition cluster_A : ElasticsearchCluster :=
  {| Meta := meta "ns" "A";
     Spec := {| Version := "7.1";
                NodePools := [ Some {| Roles := ["data"];
                                       State := Some {| Stateful := true;
                                                        Persistence := {| Enabled := false |} |} |} ] |} |}.

(** Cluster ns/bad: no version, a pool with an unknown role. *)
Definition cluster_bad : ElasticsearchCluster :=
  {| Meta := meta "ns" "bad";
     Spec := {| Version := "";
                NodePools := [ Some {| Roles := ["worker"]; State := None |} ] |} |}.

(** Cluster ns/nil: a version, a nil entry, then a pool with an unknown
    role. *)
Definition cluster_nil_pool : ElasticsearchCluster :=
  {| Meta := meta "ns" "nil";
     Spec := {| Version := "7.1";
                NodePools := [ None;
                               Some {| Roles := ["worker"]; State := None |} ] |} |}.

(** Memory: [cluster_A] at address 1, [cluster_bad] everywhere else. *)
Definition memory : Heap := fun p => if Pos.eqb p 1 then cluster_A else cluster_bad.

Definition not_found (name : string) : error :=
  StatusError StatusReasonNotFound ("elasticsearchcluster " ++ name ++ " not found").

(** The lister finds ns/A at address 1 and ns/bad at address 2, fails on
    ns/down for another reason, and finds nothing else. *)
Definition lister (namespace name : string) : loc + error :=
  if String.eqb namespace "ns" && String.eqb name "A" then inl 1%positive
  else if String.eqb namespace "ns" && String.eqb name "bad" then inl 2%positive
  else if String.eqb namespace "ns" && String.eqb name "down"
       then inr (StatusError "ServiceUnavailable" "store unavailable")
  else inr (not_found name).

Definition script (item : Object * bool) (answer : ElasticsearchCluster -> option error)
  : Script :=
  {| next_item := item; lookup := lister; strategy := answer; clock := 1000%Z;
     synced := fun _ => true |}.

Definition succeed (c : ElasticsearchCluster) : option error := None.
Definition conflict (c : ElasticsearchCluster) : option error :=
  Some (errorString "conflict").

(** A deployment of namespace ns controlled by cluster [owner]. *)
Definition owned_by (owner name body : string) : Resource :=
  {| resMeta := {| Name := name; Namespace := "ns";
                   OwnerReferences := [ {| ownerKind := "ElasticsearchCluster";
                                           ownerName := owner;
                                           ownerController := Some true |} ];
                   DeletionTimestamp := None |};
     resBody := body |}.

(** A queue with its pending keys as state: [Get] hands them out in order
    and signals shutdown when none is left.  The lister is [lister], the
    cluster control succeeds, the clock stands still. *)
Definition queued : Environment (list Object) := fun X c h pending =>
  match c in Call T return T * list Object with
  | queue_Get =>
      match pending with
      | key :: rest => ((key, false), rest)
      | [] => ((ObjString "", true), [])
      end
  | esLister_Get namespace name => (lister namespace name, pending)
  | SyncElasticsearchCluster es => (succeed (h es), pending)
  | time_Now => (1000%Z, pending)
  | WaitForCacheSync caches => (true, pending)
  | queue_Done _ | queue_Add _ | queue_AddRateLimited _ | queue_Forget _
  | queue_ShutDown | logrus _ _ | HandleError _ | go_worker | recv_stopCh =>
      (tt, pending)
  end.

(** The three caches [Run] waits for sync; those of the service accounts and
    of the services never do. *)
Definition services_unsynced : Script :=
  {| next_item := (ObjString "ns/A", false); lookup := lister; strategy := succeed;
     clock := 1000%Z;
     synced := fun i => match i with
                        | serviceAccountInformer | serviceInformer => false
                        | _ => true
                        end |}.

End Sample.

(** ** Tactics for traces *)

(** Split a membership in a trace that is known up to its answers. *)
Ltac in_trace H :=
  simpl in H;
  repeat match type of H with
         | _ \/ _ => destruct H as [H|H]
         | False => destruct H
         | _ = _ => first [discriminate H | injection H as ? ? ?; subst
                           | injection H as ? ?; subst | injection H as ?; subst]
         end.

(** The four ways through [sync], with the answer of the cluster control
    split into nil and an error. *)
Ltac sync_cases Hpath :=
  let res := fresh "res" in
  destruct Hpath as [? ? | ? ? ? ? ? | ? ? ? ? ? | ? ? ? res ?];
  [ | | | destruct res ].

(** * Properties of the validator *)

Module ValidatorFacts.
Import Validator.

Lemma known_role_ok (role : string) : known_role role = true <-> role_ok role.
Proof.
  unfold known_role, role_ok.
  rewrite !orb_true_iff, !String.eqb_eq. tauto.
Qed.

Lemma known_role_not_ok (role : string) : known_role role = false <-> ~ role_ok role.
Proof.
  rewrite <- known_role_ok. destruct (known_role role); split; congruence.
Qed.

Lemma verifyRoles_accepts (roles : list string) :
  verifyRoles roles = None <-> (forall role, In role roles -> role_ok role).
Proof.
  induction roles as [|role rest IH]; simpl.
  - split; [intros _ ? [] | reflexivity].
  - destruct (known_role role) eqn:K.
    + rewrite IH. apply known_role_ok in K. split.
      * intros H r [<-|Hin]; auto.
      * intros H r Hin. apply H. now right.
    + split; [discriminate|].
      intros H. apply known_role_not_ok in K. destruct K. apply H. now left.
Qed.

(** A rejection by the role loop names a role of the pool that is not known,
    the first one. *)
Lemma verifyRoles_rejects (roles : list string) (err : error) :
  verifyRoles roles = Some err ->
  exists known role rest,
    roles = known ++ role :: rest /\ (forall r, In r known -> role_ok r) /\
    ~ role_ok role /\ err = invalid_role role.
Proof.
  induction roles as [|role rest IH]; simpl; [discriminate|].
  destruct (known_role role) eqn:K.
  - intros H. destruct (IH H) as (known & bad & rest' & -> & Hk & Hbad & ->).
    exists (role :: known), bad, rest'. split; [reflexivity|].
    split; [|split; [assumption | reflexivity]].
    intros r [<-|Hin]; [now apply known_role_ok | now apply Hk].
  - intros [= <-]. exists [], role, rest. split; [reflexivity|].
    split; [intros ? []|]. split; [now apply known_role_not_ok | reflexivity].
Qed.

Lemma verifyRoles_first (roles : list string) :
  verifyRoles roles = head (role_violations roles).
Proof.
  unfold role_violations.
  induction roles as [|role rest IH]; simpl; [reflexivity|].
  destruct (known_role role); simpl; [exact IH | reflexivity].
Qed.

Lemma head_app {A : Type} (l l' : list A) :
  head (l ++ l') = match head l with Some x => Some x | None => head l' end.
Proof. destruct l; reflexivity. Qed.

(** On a pool that is there, [verifyNodePool] returns, and what it returns
    is the pool's first violation. *)
Lemma verifyNodePool_first (np : ElasticsearchClusterNodePool) :
  verifyNodePool (Some np) = Returns (head (pool_violations np)).
Proof.
  unfold verifyNodePool, pool_violations, state_violations.
  rewrite head_app, <- verifyRoles_first.
  destruct (verifyRoles (Roles np)); [reflexivity|].
  destruct (State np) as [st|]; [|reflexivity].
  destruct (negb (Stateful st) && Enabled (Persistence st)); reflexivity.
Qed.

Lemma verifyNodePool_rejects (np : ElasticsearchClusterNodePool) :
  verifyNodePool (Some np) <> Returns None <->
  bad_role_pool np \/ nonstateful_persistent_pool np.
Proof.
  unfold verifyNodePool, bad_role_pool, nonstateful_persistent_pool.
  destruct (verifyRoles (Roles np)) as [err|] eqn:R.
  - split; [intros _; left | discriminate].
    destruct (verifyRoles_rejects _ _ R) as (known & role & rest & E & _ & Hbad & _).
    exists role. split; [|exact Hbad].
    rewrite E. apply in_or_app. right. now left.
  - pose proof (proj1 (verifyRoles_accepts _) R) as Hok.
    destruct (State np) as [st|].
    + destruct (Stateful st) eqn:Hs, (Enabled (Persistence st)) eqn:Hp; simpl;
        (split; [intros H; try congruence | intros [(role & Hin & Hbad)|(st' & [= <-] & Hs' & Hp')];
                                            [destruct Hbad; auto | congruence]]).
      right. exists st. auto.
    + split; [congruence|].
      intros [(role & Hin & Hbad)|(st' & [=] & _)]. destruct Hbad; auto.
Qed.

(** Whenever the loop over the pools returns, it returns the first violation
    of the pools. *)
Lemma verifyNodePools_returns_first
    (nps : list (option ElasticsearchClusterNodePool)) (res : option error) :
  verifyNodePools nps = Returns res ->
  res = head (flat_map entry_violations nps).
Proof.
  induction nps as [|[np|] rest IH]; cbn [verifyNodePools flat_map entry_violations].
  - now intros [= <-].
  - rewrite head_app, verifyNodePool_first.
    destruct (head (pool_violations np)); [now intros [= <-] | exact IH].
  - discriminate.
Qed.

(** It returns when no entry is nil. *)
Lemma verifyNodePools_returns (nps : list (option ElasticsearchClusterNodePool)) :
  Forall (fun np => np <> None) nps ->
  exists res, verifyNodePools nps = Returns res.
Proof.
  induction 1 as [|[np|] rest Hnp _ IH]; cbn [verifyNodePools].
  - now exists None.
  - rewrite verifyNodePool_first.
    destruct (head (pool_violations np)) as [err|]; [now exists (Some err) | exact IH].
  - now destruct Hnp.
Qed.

Lemma verifyNodePools_rejects (nps : list (option ElasticsearchClusterNodePool)) :
  Forall (fun np => np <> None) nps ->
  ((exists err, verifyNodePools nps = Returns (Some err)) <->
   (exists np, In (Some np) nps /\ bad_role_pool np) \/
   (exists np, In (Some np) nps /\ nonstateful_persistent_pool np)).
Proof.
  induction 1 as [|[np|] rest Hnp _ IH]; cbn [verifyNodePools In].
  - split; [intros [err [=]] | intros [(np & [] & _)|(np & [] & _)]].
  - destruct (verifyNodePool (Some np)) as [[err|]|] eqn:V.
    + assert (Hr : verifyNodePool (Some np) <> Returns None) by congruence.
      apply verifyNodePool_rejects in Hr.
      split; [intros _ | intros _; now exists err].
      destruct Hr as [Hr|Hr]; [left | right]; exists np; split; auto.
    + assert (Hn : ~ (bad_role_pool np \/ nonstateful_persistent_pool np)).
      { rewrite <- verifyNodePool_rejects. congruence. }
      rewrite IH. split.
      * intros [(p & Hin & Hp)|(p & Hin & Hp)]; [left | right]; exists p; split; auto.
      * intros [(p & [[= ->]|Hin] & Hp)|(p & [[= ->]|Hin] & Hp)];
          try tauto; [left | right]; exists p; split; auto.
    + rewrite verifyNodePool_first in V. discriminate V.
  - now destruct Hnp.
Qed.

(** C2, as the code has it.  For a cluster none of whose node pool entries
    is nil, the validator returns, and it rejects the cluster exactly when
    its version is empty, or one of its node pools declares a role other
    than data, client and master, or one of its node pools is at once
    non-stateful and persistence-enabled.  A cluster without a version is
    rejected whatever its pools; the role worker is rejected with the error
    that names it; a pool that is non-stateful with persistence is rejected
    whatever its roles; pools that are non-stateful without persistence, or
    stateful with persistence, are accepted when their roles are known. *)
Theorem validator_rejects_iff (c : ElasticsearchCluster) :
  (no_nil_pool c ->
   (exists res, verifyElasticsearchCluster c = Returns res) /\
   (rejects c <-> invalid_as_specified c)) /\
  (Version (Spec c) = "" ->
   verifyElasticsearchCluster c = Returns (Some version_missing)) /\
  (forall m v st,
      v <> "" ->
      verifyElasticsearchCluster
        (mkCluster m (mkSpec v [Some (mkNodePool ["worker"] st)])) =
      Returns (Some (invalid_role "worker"))) /\
  Error (invalid_role "worker") =
    "invalid role 'worker' specified. must be one of 'data', 'client' or 'master'" /\
  (forall m v roles,
      rejects
        (mkCluster m (mkSpec v [Some (mkNodePool roles
           (Some (mkStatefulConfig false (mkPersistence true))))]))) /\
  (forall m v roles,
      v <> "" -> (forall role, In role roles -> role_ok role) ->
      verifyElasticsearchCluster
        (mkCluster m (mkSpec v [Some (mkNodePool roles
           (Some (mkStatefulConfig false (mkPersistence false))))])) =
      Returns None /\
      verifyElasticsearchCluster
        (mkCluster m (mkSpec v [Some (mkNodePool roles
           (Some (mkStatefulConfig true (mkPersistence true))))])) =
      Returns None).
Proof.
  split; [|split; [|split; [|split; [|split]]]].
  - intros Hnil. unfold rejects, invalid_as_specified, has_pool, verifyElasticsearchCluster.
    destruct (String.eqb_spec (Version (Spec c)) "") as [V|V].
    + split; [now exists (Some version_missing)|].
      split; [auto | intros _; now exists version_missing].
    + split; [now apply verifyNodePools_returns|].
      rewrite (verifyNodePools_rejects _ Hnil). tauto.
  - intros V. unfold verifyElasticsearchCluster. now rewrite V.
  - intros m v st Hv. unfold verifyElasticsearchCluster. simpl.
    apply String.eqb_neq in Hv. now rewrite Hv.
  - reflexivity.
  - intros m v roles. unfold rejects, verifyElasticsearchCluster. simpl.
    destruct (String.eqb v ""); [now exists version_missing|].
    destruct (verifyRoles roles) as [err|]; simpl;
      [now exists err | now exists nonstateful_persistence].
  - intros m v roles Hv Hroles.
    apply String.eqb_neq in Hv. apply verifyRoles_accepts in Hroles.
    unfold verifyElasticsearchCluster. simpl. rewrite Hv, Hroles. simpl. now split.
Qed.

(** C2, on examples: a cluster without a version, and a cluster whose one
    pool is stateful with persistence. *)
Lemma validator_rejects_iff_witness :
  rejects Sample.cluster_bad /\
  verifyElasticsearchCluster
    (mkCluster (Sample.meta "ns" "A")
       (mkSpec "7.1" [Some (mkNodePool ["data"]
          (Some (mkStatefulConfig true (mkPersistence true))))])) = Returns None.
Proof.
  split.
  - apply (proj1 (validator_rejects_iff Sample.cluster_bad)).
    + repeat constructor. discriminate.
    + left. reflexivity.
  - apply (proj2 (proj2 (proj2 (proj2 (proj2
             (validator_rejects_iff Sample.cluster_A)))))).
    + discriminate.
    + intros role [<-|[]]. left. reflexivity.
Defined.

(** C2, stated of every cluster, does not hold: with a nil entry ahead of
    a pool with an unknown role the cluster is invalid as specified, and the
    validator does not reject it: it panics. *)
Lemma validator_rejects_iff_counterexample :
  verifyElasticsearchCluster Sample.cluster_nil_pool = Panics /\
  invalid_as_specified Sample.cluster_nil_pool /\
  ~ rejects Sample.cluster_nil_pool /\
  ~ (rejects Sample.cluster_nil_pool <-> invalid_as_specified Sample.cluster_nil_pool).
Proof.
  assert (Hinvalid : invalid_as_specified Sample.cluster_nil_pool).
  { right. left. exists (mkNodePool ["worker"] None). split.
    - right. left. reflexivity.
    - exists "worker". split; [now left|].
      intros [H|[H|H]]; discriminate H. }
  assert (Hnot : ~ rejects Sample.cluster_nil_pool).
  { intros [err H]. discriminate H. }
  split; [reflexivity|]. split; [exact Hinvalid|]. split; [exact Hnot|].
  intros [_ H]. exact (Hnot (H Hinvalid)).
Qed.

Lemma verifyRoles_first_unknown (known rest : list string) (role : string) :
  (forall r, In r known -> role_ok r) -> ~ role_ok role ->
  verifyRoles (known ++ role :: rest) = Some (invalid_role role).
Proof.
  intros Hknown Hbad. induction known as [|r known IH]; simpl.
  - apply known_role_not_ok in Hbad. now rewrite Hbad.
  - assert (Hr : known_role r = true) by (apply known_role_ok, Hknown; now left).
    rewrite Hr. apply IH. intros r' Hin. apply Hknown. now right.
Qed.

Lemma verifyNodePools_first_rejected
    (accepted rest : list (option ElasticsearchClusterNodePool))
    (np : option ElasticsearchClusterNodePool) (err : error) :
  Forall (fun p => verifyNodePool p = Returns None) accepted ->
  verifyNodePool np = Returns (Some err) ->
  verifyNodePools (accepted ++ np :: rest) = Returns (Some err).
Proof.
  intros Hacc Hnp. induction Hacc as [|p accepted Hp _ IH]; simpl.
  - now rewrite Hnp.
  - now rewrite Hp.
Qed.

(** C8, as the code has it.  For a cluster none of whose node pool entries
    is nil the validator returns the first violation in the order of its
    checks, and only that one: the missing version before anything else,
    then the first node pool in list order that has a violation, and within
    a pool the first unknown role before the non-stateful persistence.
    Whenever it returns at all, that is what it returns.  On a pointer it
    reads the cluster and leaves memory and every collaborator as they were,
    without a call. *)
Theorem validator_returns_first_violation
    {S : Type} (env : Environment S) (h : Heap) (s : S) (c : loc) :
  let out := run env (Controller.verifyElasticsearchCluster c) h s in
  let cluster := h c in
  (no_nil_pool cluster ->
   result_of out = Returns (head (cluster_violations cluster))) /\
  (forall res,
      result_of out = Returns res -> res = head (cluster_violations cluster)) /\
  (Version (Spec cluster) = "" -> result_of out = Returns (Some version_missing)) /\
  (forall accepted np rest err,
      Version (Spec cluster) <> "" ->
      NodePools (Spec cluster) = accepted ++ np :: rest ->
      Forall (fun p => verifyNodePool p = Returns None) accepted ->
      verifyNodePool np = Returns (Some err) ->
      result_of out = Returns (Some err)) /\
  (forall np known role rest,
      Roles np = known ++ role :: rest ->
      (forall r, In r known -> role_ok r) -> ~ role_ok role ->
      verifyNodePool (Some np) = Returns (Some (invalid_role role))) /\
  heap_of out = h /\ state_of out = s /\ trace_of out = [].
Proof.
  simpl.
  assert (Hfirst : forall res,
             verifyElasticsearchCluster (h c) = Returns res ->
             res = head (cluster_violations (h c))).
  { intros res. unfold verifyElasticsearchCluster, cluster_violations.
    destruct (String.eqb (Version (Spec (h c))) ""); simpl; [now intros [= <-]|].
    apply verifyNodePools_returns_first. }
  split.
  { intros Hnil.
    assert (Hret : exists res, verifyElasticsearchCluster (h c) = Returns res).
    { unfold verifyElasticsearchCluster.
      destruct (String.eqb (Version (Spec (h c))) "");
        [now exists (Some version_missing) | now apply verifyNodePools_returns]. }
    destruct Hret as [res Hret]. rewrite Hret. f_equal. now apply Hfirst. }
  split; [exact Hfirst|].
  split.
  { intros V. unfold verifyElasticsearchCluster. now rewrite V. }
  split.
  { intros accepted np rest err V Hpools Hacc Hnp.
    unfold verifyElasticsearchCluster. apply String.eqb_neq in V. rewrite V, Hpools.
    now apply verifyNodePools_first_rejected. }
  split.
  { intros np known role rest Hroles Hknown Hbad.
    unfold verifyNodePool. rewrite Hroles.
    now rewrite verifyRoles_first_unknown. }
  repeat split.
Qed.

(** C8, on an example: a cluster with two violations gets the first. *)
Lemma validator_returns_first_violation_witness :
  cluster_violations Sample.cluster_bad = [version_missing; invalid_role "worker"] /\
  result_of (run Sample.scripted (Controller.verifyElasticsearchCluster 2%positive)
               Sample.memory (Sample.script (ObjString "ns/bad", false) Sample.succeed))
  = Returns (Some version_missing).
Proof.
  split; [reflexivity|].
  apply (proj1 (validator_returns_first_violation Sample.scripted Sample.memory
                  (Sample.script (ObjString "ns/bad", false) Sample.succeed)
                  2%positive)).
  repeat constructor. discriminate.
Defined.

(** C8, stated of every cluster, does not hold: with a nil entry ahead of
    the first violating pool the cluster has a first violation, the unknown
    role, and the validator does not return it: it panics. *)
Lemma validator_returns_first_violation_counterexample :
  head (cluster_violations Sample.cluster_nil_pool) = Some (invalid_role "worker") /\
  result_of (run Sample.scripted (Controller.verifyElasticsearchCluster 1%positive)
               (fun _ => Sample.cluster_nil_pool)
               (Sample.script (ObjString "ns/nil", false) Sample.succeed)) = Panics /\
  result_of (run Sample.scripted (Controller.verifyElasticsearchCluster 1%positive)
               (fun _ => Sample.cluster_nil_pool)
               (Sample.script (ObjString "ns/nil", false) Sample.succeed)) <>
    Returns (head (cluster_violations Sample.cluster_nil_pool)).
Proof. repeat split. discriminate. Qed.

(** C10.  With no [State] the stateful/persistence check is skipped: the
    pool is judged by its roles alone, and accepted when they are all
    known. *)
Theorem nil_state_skips_persistence_check (np : ElasticsearchClusterNodePool) :
  State np = None ->
  verifyNodePool (Some np) = Returns (verifyRoles (Roles np)) /\
  ((forall role, In role (Roles np) -> role_ok role) ->
   verifyNodePool (Some np) = Returns None) /\
  state_violations np = [].
Proof.
  intros Hnil. unfold verifyNodePool, state_violations. rewrite Hnil.
  split; [now destruct (verifyRoles (Roles np))|].
  split; [|reflexivity].
  intros Hroles. apply verifyRoles_accepts in Hroles. now rewrite Hroles.
Qed.

Lemma nil_state_skips_persistence_check_witness :
  verifyNodePool (Some {| Roles := ["data"; "master"]; State := None |}) = Returns None.
Proof.
  apply (nil_state_skips_persistence_check
           {| Roles := ["data"; "master"]; State := None |} eq_refl).
  simpl. intros role [<-|[<-|[]]]; unfold role_ok; auto.
Defined.

End ValidatorFacts.

(** * Properties of the controller *)

Module ControllerFacts.
Import Controller.

Section Facts.
Context {imports : Imports} {S : Type} (env : Environment S).

(** ** Running programs *)

Lemma run_bind {A B : Type} (p : Prog A) (f : A -> Prog B) (h : Heap) (s : S) :
  run env (bind p f) h s =
  let first := run env p h s in
  let rest := run env (f (result_of first)) (heap_of first) (state_of first) in
  mkOutcome (result_of rest) (heap_of rest) (state_of rest)
            (trace_of first ++ trace_of rest).
Proof.
  revert h s. induction p as [a | X c k IH | k IH | h' k IH]; intros h s; simpl.
  - now destruct (run env (f a) h s).
  - now rewrite IH.
  - apply IH.
  - apply IH.
Qed.

(** ** [sync] *)

Lemma sync_runs (key : string) (h : Heap) (s : S) :
  let out := run env (sync key) h s in
  heap_of out = h /\
  exists (t0 t1 : Time) (body : list Event),
    trace_of out = ENow t0 :: body ++ finished_syncing t1 /\
    sync_path h key body (result_of out).
Proof.
  unfold sync. simpl.
  destruct (env _ time_Now h s) as [t0 s0]. simpl.
  destruct (SplitMetaNamespaceKey key) as [[namespace name]|err] eqn:Hsplit; simpl.
  - destruct (env _ (esLister_Get namespace name) h s0) as [[es|err] s1]; simpl.
    + destruct (env _ (SyncElasticsearchCluster es) h s1) as [res s2]; simpl.
      destruct (env _ time_Now h s2) as [t1 s3]; simpl.
      split; [reflexivity|].
      exists t0, t1, [ELookup namespace name (inl es); ESync es (h es) res].
      split; [reflexivity|]. now apply sync_found.
    + destruct (IsNotFound err) eqn:Hnf; simpl.
      * destruct (env _ (logrus _ _) h s1) as [[] s2]; simpl.
        destruct (env _ time_Now h s2) as [t1 s3]; simpl.
        split; [reflexivity|].
        exists t0, t1, [ELookup namespace name (inr err);
                        ELog InfoLevel "ElasticsearchCluster has been deleted %v"].
        split; [reflexivity|]. now apply sync_deleted.
      * destruct (env _ (HandleError _) h s1) as [[] s2]; simpl.
        destruct (env _ time_Now h s2) as [t1 s3]; simpl.
        split; [reflexivity|].
        exists t0, t1, [ELookup namespace name (inr err);
                        EHandleError (unable_to_retrieve key err)].
        split; [reflexivity|]. now apply sync_lookup_failed.
  - destruct (env _ time_Now h s0) as [t1 s1]; simpl.
    split; [reflexivity|].
    exists t0, t1, []. split; [reflexivity|]. now apply sync_malformed.
Qed.

#[local] Arguments sync : simpl never.

(** ** [processNextWorkItem] *)

(** A string key: [sync], then [AddRateLimited] or [Forget] by its result,
    then [Done]. *)
Lemma dispatch_string_key (h : Heap) (s : S) (k : string) :
  let out := run env processNextWorkItem h s in
  let key := ObjString k in
  head (trace_of out) = Some (EGet key false) ->
  exists (t0 t1 : Time) (body : list Event) (res : option error),
    sync_path h k body res /\
    result_of out = true /\
    heap_of out = h /\
    trace_of out =
      EGet key false :: ENow t0 :: body ++ finished_syncing t1 ++
      match res with
      | Some _ =>
          [ELog InfoLevel "Error syncing ElasticsearchCluster %v, requeuing: %v";
           EAddRateLimited key; EDone key]
      | None => [EForget key; EDone key]
      end.
Proof.
  unfold processNextWorkItem. cbn.
  destruct (env _ queue_Get h s) as [[key quit] s0]. cbn.
  intros [= -> ->]. cbn.
  rewrite !run_bind. cbn.
  destruct (sync_runs k h s0) as (Hheap & t0 & t1 & body & Htrace & Hpath).
  set (synced := run env (sync k) h s0) in *.
  exists t0, t1, body, (result_of synced).
  split; [exact Hpath|].
  rewrite Htrace, Hheap.
  destruct (result_of synced); cbn.
  - repeat split. now rewrite <- !app_assoc.
  - repeat split. now rewrite <- !app_assoc.
Qed.

(** C1.  A string key taken from the queue.  [processNextWorkItem] runs
    [sync] on it: the clock, then one of the four ways through [sync], then
    the deferred log; an error from [sync] is logged and the key re-added
    with [AddRateLimited], nil gets the key forgotten; [Done] comes last.
    So when the key splits the lister is asked once, for the namespace and
    name it splits into.  When the lister reports the cluster not found,
    [sync] returns nil and the key is forgotten, the cluster control is not
    called and nothing is re-added.  When the key does not split, or the
    lister fails in another way, the key is re-added and not forgotten.
    When the lister finds the cluster, the cluster control is called on it,
    once, and the key is re-added if it returns an error and forgotten if it
    returns nil. *)
Theorem string_key_dispatch (h : Heap) (s : S) (k : string) :
  let out := run env processNextWorkItem h s in
  let tr := trace_of out in
  let key := ObjString k in
  let forgotten := [EGet key false; EForget key; EDone key] in
  let readded := [EGet key false; EAddRateLimited key; EDone key] in
  head tr = Some (EGet key false) ->
  result_of out = true /\
  (exists (t0 t1 : Time) (body : list Event) (res : option error),
      sync_path h k body res /\
      tr = EGet key false :: ENow t0 :: body ++ finished_syncing t1 ++
           match res with
           | Some _ =>
               [ELog InfoLevel "Error syncing ElasticsearchCluster %v, requeuing: %v";
                EAddRateLimited key; EDone key]
           | None => [EForget key; EDone key]
           end) /\
  (forall namespace name,
      SplitMetaNamespaceKey k = inl (namespace, name) ->
      exists answer : loc + error,
        lookups tr = [ELookup namespace name answer] /\
        match answer with
        | inl es =>
            exists res : option error,
              strategy_calls tr = [ESync es (h es) res] /\
              queue_ops tr = match res with
                             | Some _ => readded
                             | None => forgotten
                             end
        | inr err =>
            strategy_calls tr = [] /\
            queue_ops tr = if IsNotFound err then forgotten else readded
        end) /\
  (forall err,
      SplitMetaNamespaceKey k = inr err ->
      queue_ops tr = readded /\ lookups tr = [] /\ strategy_calls tr = []) /\
  (forall namespace name err,
      In (ELookup namespace name (inr err)) tr -> IsNotFound err = true ->
      queue_ops tr = forgotten /\ strategy_calls tr = []) /\
  (forall h0 s0 namespace name err,
      In (ELookup namespace name (inr err)) (trace_of (run env (sync k) h0 s0)) ->
      IsNotFound err = true ->
      result_of (run env (sync k) h0 s0) = None) /\
  (forall namespace name err,
      In (ELookup namespace name (inr err)) tr -> IsNotFound err = false ->
      queue_ops tr = readded) /\
  (forall es cluster err,
      In (ESync es cluster (Some err)) tr -> queue_ops tr = readded) /\
  (forall es cluster,
      In (ESync es cluster None) tr -> queue_ops tr = forgotten).
Proof.
  intros out tr key forgotten readded Hget.
  destruct (dispatch_string_key h s k Hget)
    as (t0 & t1 & body & res & Hpath & Hres & _ & Htrace).
  fold out in Hres, Htrace. fold tr in Htrace. fold key in Htrace.
  split; [exact Hres|].
  split; [now exists t0, t1, body, res|].
  split; [|split; [|split; [|split]]].
  - intros namespace name Hsplit. rewrite Htrace.
    sync_cases Hpath; try congruence;
      match goal with
      | H : SplitMetaNamespaceKey k = inl _ |- _ =>
          rewrite Hsplit in H; injection H as <- <-
      end.
    + exists (inr err). cbn. rewrite H0. now repeat split.
    + exists (inr err). cbn. rewrite H0. now repeat split.
    + exists (inl es). cbn. split; [reflexivity|]. now exists (Some e).
    + exists (inl es). cbn. split; [reflexivity|]. now exists None.
  - intros err Hsplit. rewrite Htrace.
    sync_cases Hpath; try congruence; now repeat split.
  - intros namespace name err Hin Hnf. rewrite Htrace in Hin |- *.
    sync_cases Hpath; in_trace Hin; try congruence; split; reflexivity.
  - intros h0 s0 namespace name err Hin Hnf.
    destruct (sync_runs k h0 s0) as (_ & t2 & t3 & body' & Htrace' & Hpath').
    rewrite Htrace' in Hin.
    sync_cases Hpath'; in_trace Hin; congruence.
  - rewrite Htrace. clear Htrace Hres Hget.
    repeat split.
    + intros namespace name err Hin Hnf.
      sync_cases Hpath; in_trace Hin; try congruence; reflexivity.
    + intros es cluster err Hin.
      sync_cases Hpath; in_trace Hin; reflexivity.
    + intros es cluster Hin.
      sync_cases Hpath; in_trace Hin; reflexivity.
Qed.

(** C7.  [sync] hands every cluster the lister finds to the cluster control,
    once, and returns what the cluster control returns, whatever
    [verifyElasticsearchCluster] says of that cluster: the validator is not
    consulted. *)
Theorem sync_invokes_strategy_unvalidated
    (key : string) (h : Heap) (s : S) (namespace name : string) (es : loc) :
  let out := run env (sync key) h s in
  In (ELookup namespace name (inl es)) (trace_of out) ->
  forall verdict : Validator.Verdict,
    Validator.verifyElasticsearchCluster (h es) = verdict ->
    exists res : option error,
      strategy_calls (trace_of out) = [ESync es (h es) res] /\
      result_of out = res.
Proof.
  intros out Hin verdict _.
  destruct (sync_runs key h s) as (_ & t0 & t1 & body & Htrace & Hpath).
  fold out in Htrace, Hpath. rewrite Htrace in Hin |- *.
  destruct Hpath as [? ? | ? ? ? ? ? | ? ? ? ? ? | ? ? ? res ?]; in_trace Hin.
  exists res. split; reflexivity.
Qed.

(** C3.  A cluster snapshot taken from the queue (the delete handler
    enqueues the object itself).  The dispatcher writes the time it reads
    into the snapshot's deletion timestamp, calls the cluster control once,
    on the stamped snapshot, and then forgets the key and marks it done,
    whether the cluster control returned an error or not;
    [AddRateLimited] is not called. *)
Theorem snapshot_key_dispatch (h : Heap) (s : S) (es : loc) :
  let out := run env processNextWorkItem h s in
  let tr := trace_of out in
  let key := ObjCluster es in
  head tr = Some (EGet key false) ->
  exists (t : Time) (res : option error),
    let stamped := with_DeletionTimestamp t (h es) in
    DeletionTimestamp (Meta stamped) = Some t /\
    heap_of out = heap_update es stamped h /\
    heap_of out es = stamped /\
    strategy_calls tr = [ESync es stamped res] /\
    queue_ops tr = [EGet key false; EForget key; EDone key] /\
    (forall k, ~ In (EAddRateLimited k) tr) /\
    result_of out = true /\
    tr = EGet key false :: ENow t :: ESync es stamped res ::
         match res with
         | Some _ =>
             [ELog InfoLevel "Error syncing ElasticsearchCluster %v, requeuing: %v"]
         | None => []
         end ++ [EForget key; EDone key] /\
    (forall h0 s0,
        trace_of (run env (DeleteFunc (NewElasticsearch esInformer) key) h0 s0) =
        [EAdd key]).
Proof.
  unfold processNextWorkItem. simpl.
  destruct (env _ queue_Get h s) as [[key quit] s0]. simpl.
  intros [= -> ->]. simpl.
  destruct (env _ time_Now h s0) as [t s1]. simpl.
  set (stamped := with_DeletionTimestamp t (h es)).
  assert (Hes : heap_update es stamped h es = stamped).
  { unfold heap_update. now rewrite Pos.eqb_refl. }
  rewrite Hes.
  destruct (env _ (SyncElasticsearchCluster es) (heap_update es stamped h) s1)
    as [res s2]. simpl.
  exists t, res. simpl.
  destruct res as [err|]; simpl; rewrite ?Hes;
    (repeat split; try reflexivity;
     intros k Hin; in_trace Hin).
Qed.

(** C9.  A key that is neither a string nor a cluster pointer (a tombstone
    of the delete handler, say) is marked done and [processNextWorkItem]
    returns true; nothing else happens: no lookup, no call of the cluster
    control, no [Forget] and no [AddRateLimited]. *)
Theorem other_key_discarded (h : Heap) (s : S) (key : Object) :
  let out := run env processNextWorkItem h s in
  head (trace_of out) = Some (EGet key false) ->
  (forall k, key <> ObjString k) ->
  (forall es, key <> ObjCluster es) ->
  result_of out = true /\
  trace_of out = [EGet key false; EDone key] /\
  heap_of out = h /\
  (forall h0 s0,
      trace_of (run env (DeleteFunc (NewElasticsearch esInformer) key) h0 s0) =
      [EAdd key]).
Proof.
  unfold processNextWorkItem. simpl.
  destruct (env _ queue_Get h s) as [[key' quit] s0]. simpl.
  intros [= -> ->] Hstring Hcluster. simpl.
  destruct key as [k|es| | | | |]; simpl;
    [destruct (Hstring k eq_refl) | destruct (Hcluster es eq_refl) | ..];
    repeat split.
Qed.

(** ** The event handlers *)

Lemma handler_routes (informer : Informer) (obj : Object) (h : Heap) (s : S) :
  informer <> esInformer ->
  let out := run env (AddFunc (NewElasticsearch informer) obj) h s in
  heap_of out = h /\ route h informer obj (trace_of out).
Proof.
  intros Hsub.
  destruct informer; [destruct (Hsub eq_refl) | ..]; simpl;
    (destruct obj as [k|p|r|r|r|r|k o]; simpl;
     try (split; [reflexivity | now apply route_undecodable]);
     destruct (managedOwnerRef (resMeta r)) as [ownerRef|] eqn:Hown; simpl;
     [ | split; [reflexivity | now apply (route_unmanaged h _ _ r)] ];
     match goal with
     | |- context [env _ (esLister_Get ?ns ?n) ?h0 ?s0] =>
         destruct (env _ (esLister_Get ns n) h0 s0) as [[es|err] s1]
     end; simpl;
     [ destruct (KeyFunc h (ObjCluster es)) as [key|err] eqn:Hkey; simpl;
       (split; [reflexivity|]);
       [ refine (route_enqueued h _ _ r ownerRef es key _ Hown Hkey)
       | refine (route_no_key h _ _ r ownerRef es err _ Hown Hkey) ]
     | split; [reflexivity|];
       refine (route_orphaned h _ _ r ownerRef err _ Hown) ];
     reflexivity).
Qed.


Lemma announce_lookup_quiet (informer : Informer) :
  queue_ops (announce_lookup informer) = [].
Proof. now destruct informer. Qed.

Lemma queue_ops_app (tr tr' : list Event) :
  queue_ops (tr ++ tr') = queue_ops tr ++ queue_ops tr'.
Proof. apply List.filter_app. Qed.

Lemma lookup_announced (informer : Informer) (namespace name : string)
    (res : loc + error) (e : Event) :
  In (ELookup namespace name res) (announce_lookup informer ++ [ELookup namespace name res; e]).
Proof. apply in_or_app. right. now left. Qed.

Lemma lookup_of_route (informer : Informer) (namespace name namespace' name' : string)
    (res res' : loc + error) (e : Event) :
  In (ELookup namespace name res)
     (announce_lookup informer ++ [ELookup namespace' name' res'; e]) ->
  (forall ns n r, e <> ELookup ns n r) ->
  res = res'.
Proof.
  intros Hin He. apply in_app_or in Hin. destruct Hin as [Hin|Hin].
  - destruct informer; in_trace Hin.
  - destruct Hin as [Heq|[Heq|[]]].
    + now injection Heq.
    + now destruct (He _ _ _ Heq).
Qed.

(** C6.  An event on a deployment, stateful set, service account or service;
    delete events run the same handler as add events.  An object that is not
    of the handler's type is logged and dropped; an object without a
    managing owner is ignored; when the lister does not find the owner
    nothing is enqueued; when it does, exactly the namespace/name key of the
    owning cluster is enqueued. *)
Theorem subordinate_event_routing
    (informer : Informer) (obj : Object) (h : Heap) (s : S) :
  let handlers := NewElasticsearch informer in
  let out := run env (AddFunc handlers obj) h s in
  let tr := trace_of out in
  informer <> esInformer ->
  run env (DeleteFunc handlers obj) h s = out /\
  heap_of out = h /\
  (downcast informer obj = None ->
   tr = [ELog ErrorLevel (decoding_error informer)]) /\
  (forall r,
      downcast informer obj = Some r -> managedOwnerRef (resMeta r) = None ->
      tr = []) /\
  (forall r ownerRef,
      downcast informer obj = Some r ->
      managedOwnerRef (resMeta r) = Some ownerRef ->
      let namespace := Namespace (resMeta r) in
      let name := ownerName ownerRef in
      (exists res, In (ELookup namespace name res) tr) /\
      (forall err, In (ELookup namespace name (inr err)) tr -> queue_ops tr = []) /\
      (forall es,
          In (ELookup namespace name (inl es)) tr ->
          KeyFunc h (ObjCluster es) = inl (MetaNamespaceKey (h es)) ->
          queue_ops tr = [EAdd (ObjString (MetaNamespaceKey (h es)))])).
Proof.
  intros handlers out tr Hsub.
  destruct (handler_routes informer obj h s Hsub) as [Hheap Hroute].
  fold handlers in Hheap, Hroute. fold out in Hheap, Hroute. fold tr in Hroute.
  split; [now destruct informer|].
  split; [exact Hheap|].
  clearbody tr. clear Hheap.
  split; [|split].
  - intros Hcast. destruct Hroute; congruence.
  - intros r Hcast Hown. destruct Hroute; congruence.
  - intros r ownerRef Hcast Hown namespace name.
    destruct Hroute as [Hc | r' Hc Ho | r' o' err Hc Ho | r' o' es err Hc Ho Hk
                        | r' o' es key Hc Ho Hk];
      try congruence;
      assert (r' = r) by congruence; subst r';
      assert (o' = ownerRef) by congruence; subst o';
      fold namespace name;
      (split; [eexists; apply lookup_announced|]);
      rewrite queue_ops_app, announce_lookup_quiet; simpl;
      (split; [intros err' Hin | intros es' Hin Hkey]);
      (apply lookup_of_route in Hin; [|discriminate]);
      congruence.
Qed.

(** C5.  An update event, for each of the five informers.  When
    [reflect.DeepEqual] finds the old and the new object equal nothing
    happens: no call at all.  Otherwise the update runs the add handler on
    the new object.  For a cluster that enqueues its key (and logs when
    [KeyFunc] fails).  For a subordinate it does what an add does: an object
    of another type is logged and dropped, an object without a managing
    owner is ignored, and for a managed one the lister is asked for the
    owner; when it is not found nothing is enqueued, and when it is found
    exactly the owner's namespace/name key is enqueued.  Never more than one
    key is enqueued. *)
Theorem update_events_filtered
    (informer : Informer) (old cur : Object) (h : Heap) (s : S) :
  let handlers := NewElasticsearch informer in
  let out := run env (UpdateFunc handlers old cur) h s in
  let tr := trace_of out in
  (DeepEqual h old cur = true ->
   tr = [] /\ heap_of out = h /\ state_of out = s) /\
  (DeepEqual h old cur = false ->
   out = run env (AddFunc handlers cur) h s /\
   heap_of out = h /\
   (informer = esInformer ->
    tr = match KeyFunc h cur with
         | inl key => [EAdd (ObjString key)]
         | inr _ => [ELog InfoLevel "Cound't get key for object %+v: %v"]
         end) /\
   (forall es,
       informer = esInformer -> cur = ObjCluster es ->
       KeyFunc h cur = inl (MetaNamespaceKey (h es)) ->
       tr = [EAdd (ObjString (MetaNamespaceKey (h es)))]) /\
   (informer <> esInformer ->
    (downcast informer cur = None ->
     tr = [ELog ErrorLevel (decoding_error informer)]) /\
    (forall r,
        downcast informer cur = Some r -> managedOwnerRef (resMeta r) = None ->
        tr = []) /\
    (forall r ownerRef,
        downcast informer cur = Some r ->
        managedOwnerRef (resMeta r) = Some ownerRef ->
        let namespace := Namespace (resMeta r) in
        let name := ownerName ownerRef in
        (exists answer, lookups tr = [ELookup namespace name answer]) /\
        (forall err, In (ELookup namespace name (inr err)) tr -> queue_ops tr = []) /\
        (forall es,
            In (ELookup namespace name (inl es)) tr ->
            KeyFunc h (ObjCluster es) = inl (MetaNamespaceKey (h es)) ->
            queue_ops tr = [EAdd (ObjString (MetaNamespaceKey (h es)))]))) /\
   (forall namespace name es,
       In (ELookup namespace name (inl es)) tr ->
       KeyFunc h (ObjCluster es) = inl (MetaNamespaceKey (h es)) ->
       queue_ops tr = [EAdd (ObjString (MetaNamespaceKey (h es)))]) /\
   (queue_ops tr = [] \/ exists key, queue_ops tr = [EAdd (ObjString key)])).
Proof.
  intros handlers out tr.
  assert (Hout : out = if DeepEqual h old cur then mkOutcome tt h s []
                       else run env (AddFunc handlers cur) h s).
  { subst out handlers. destruct informer; simpl;
      now destruct (DeepEqual h old cur). }
  split.
  - intros Heq. subst tr. rewrite Hout, Heq. repeat split.
  - intros Hne. rewrite Hne in Hout. split; [exact Hout|].
    subst tr. rewrite Hout. clear Hout out.
    destruct (decide (informer = esInformer)) as [->|Hsub].
    + subst handlers. simpl.
      destruct (KeyFunc h cur) as [key|err] eqn:Hk; simpl;
        (split; [reflexivity|]); (split; [reflexivity|]);
        (split; [|split; [intros Hsub; now destruct Hsub | split]]).
      * intros es _ _ [= ->]. reflexivity.
      * intros namespace name es Hin. in_trace Hin.
      * right. now exists key.
      * intros es _ _ [=].
      * intros namespace name es Hin. in_trace Hin.
      * now left.
    + destruct (handler_routes informer cur h s Hsub) as [Hheap Hroute].
      fold handlers in Hheap, Hroute.
      split; [exact Hheap|].
      split; [intros Hes; contradiction|].
      split; [intros es Hes; contradiction|].
      clear Hheap. set (tr := trace_of (run env (AddFunc handlers cur) h s)) in *.
      clearbody tr.
      split.
      { intros _. split; [|split].
        - intros Hcast. destruct Hroute; congruence.
        - intros r Hcast Hown. destruct Hroute; congruence.
        - intros r ownerRef Hcast Hown namespace name.
          destruct Hroute as [Hc | r' Hc Ho | r' o' err Hc Ho | r' o' es err Hc Ho Hk
                              | r' o' es key Hc Ho Hk];
            try congruence;
            assert (r' = r) by congruence; subst r';
            assert (o' = ownerRef) by congruence; subst o';
            fold namespace name;
            (split; [eexists; unfold lookups; rewrite List.filter_app;
                     destruct informer; reflexivity|]);
            rewrite queue_ops_app, announce_lookup_quiet; simpl;
            (split; [intros err' Hin | intros es' Hin Hkey]);
            (apply lookup_of_route in Hin; [|discriminate]);
            congruence. }
      destruct Hroute as [Hc | r' Hc Ho | r' o' err Hc Ho | r' o' es' err Hc Ho Hk
                          | r' o' es' key Hc Ho Hk];
        rewrite ?queue_ops_app, ?announce_lookup_quiet; simpl.
      * split; [|now left]. intros namespace name es Hin. in_trace Hin.
      * split; [|now left]. intros namespace name es Hin. in_trace Hin.
      * split; [|now left]. intros namespace name es Hin.
        apply lookup_of_route in Hin; [discriminate Hin | discriminate].
      * split; [|now left]. intros namespace name es Hin.
        apply lookup_of_route in Hin; [injection Hin as -> | discriminate].
        congruence.
      * split; [|right; now exists key]. intros namespace name es Hin.
        apply lookup_of_route in Hin; [injection Hin as -> | discriminate].
        congruence.
Qed.

(** ** [Run] *)

Lemma start_workers_runs (n : nat) (h : Heap) (s : S) :
  let out := run env (start_workers n) h s in
  heap_of out = h /\ trace_of out = repeat EGo n.
Proof.
  revert s. induction n as [|n IH]; intros s; simpl; [now split|].
  destruct (IH (snd (env _ go_worker h s))) as [Hheap Htrace].
  now rewrite Hheap, Htrace.
Qed.

(** What [Run] does, whatever the collaborators answer: it waits for the
    caches of the deployments, the clusters and the stateful sets, reports
    an error when the wait fails and goes on all the same, starts a worker
    for every [i] from [0] while [i < workers], waits for the stop channel
    and shuts the queue down.  No worker is started before the wait has
    returned. *)
Theorem Run_waits_then_starts_workers (workers : Z) (h : Heap) (s : S) :
  exists ok : bool,
    trace_of (run env (Run workers) h s) =
    ELog InfoLevel "Starting Elasticsearch controller"
    :: EWaitForCacheSync [deployInformer; esInformer; statefulSetInformer] ok
    :: (if ok then []
        else [EHandleError (errorString "timed out waiting for caches to sync")])
    ++ repeat EGo (Z.to_nat workers)
    ++ [EStop; ELog InfoLevel "Shutting down Elasticsearch controller"; EShutDown].
Proof.
  unfold Run. cbn -[start_workers].
  set (s0 := snd (env _ (logrus InfoLevel "Starting Elasticsearch controller") h s)).
  destruct (env _ (WaitForCacheSync _) h s0) as [ok s1]. cbn -[start_workers].
  exists ok. do 2 f_equal.
  destruct ok; cbn -[start_workers]; rewrite run_bind; cbn -[start_workers].
  - now destruct (start_workers_runs (Z.to_nat workers) h s1) as [_ ->].
  - set (s2 := snd (env _ (HandleError _) h s1)).
    now destruct (start_workers_runs (Z.to_nat workers) h s2) as [_ ->].
Qed.

End Facts.

(** ** The controller on examples *)

Section Examples.
Import Sample.
#[local] Existing Instance Sample.imports.

(** C4, on the code: [Run] waits for three of the five caches.  With the
    caches of the service accounts and of the services never synced, the
    wait succeeds and both workers are started. *)
Theorem Run_starts_workers_before_service_caches_sync :
  let out := run scripted (Run 2) memory services_unsynced in
  trace_of out =
    [ELog InfoLevel "Starting Elasticsearch controller";
     EWaitForCacheSync [deployListerSynced; esListerSynced; statefulSetListerSynced] true;
     EGo; EGo; EStop;
     ELog InfoLevel "Shutting down Elasticsearch controller"; EShutDown] /\
  synced (state_of out) serviceAccountListerSynced = false /\
  synced (state_of out) serviceListerSynced = false.
Proof. repeat split. Qed.

(** C1, on examples: ns/B is not in the cache and its key is forgotten
    without a call of the cluster control; ns/down cannot be looked up and
    its key is re-added; ns/A is found and handed to the cluster control,
    and its key is re-added when the cluster control fails and forgotten
    when it succeeds. *)
Lemma string_key_dispatch_witness :
  queue_ops (trace_of (run scripted processNextWorkItem memory
                         (script (ObjString "ns/B", false) succeed))) =
    [EGet (ObjString "ns/B") false; EForget (ObjString "ns/B");
     EDone (ObjString "ns/B")] /\
  queue_ops (trace_of (run scripted processNextWorkItem memory
                         (script (ObjString "ns/down", false) succeed))) =
    [EGet (ObjString "ns/down") false; EAddRateLimited (ObjString "ns/down");
     EDone (ObjString "ns/down")] /\
  (strategy_calls (trace_of (run scripted processNextWorkItem memory
                               (script (ObjString "ns/A", false) conflict))) =
     [ESync 1%positive cluster_A (Some (errorString "conflict"))] /\
   queue_ops (trace_of (run scripted processNextWorkItem memory
                          (script (ObjString "ns/A", false) conflict))) =
     [EGet (ObjString "ns/A") false; EAddRateLimited (ObjString "ns/A");
      EDone (ObjString "ns/A")]) /\
  queue_ops (trace_of (run scripted processNextWorkItem memory
                         (script (ObjString "ns/A", false) succeed))) =
    [EGet (ObjString "ns/A") false; EForget (ObjString "ns/A");
     EDone (ObjString "ns/A")].
Proof.
  split; [|split; [|split]].
  - destruct (string_key_dispatch scripted memory
                (script (ObjString "ns/B", false) succeed) "ns/B" eq_refl)
      as (_ & _ & _ & _ & Hgone & _).
    apply (Hgone "ns" "B" (not_found "B")); [|reflexivity].
    vm_compute. do 2 right. left. reflexivity.
  - destruct (string_key_dispatch scripted memory
                (script (ObjString "ns/down", false) succeed) "ns/down" eq_refl)
      as (_ & _ & _ & _ & _ & _ & Hfailed & _).
    apply (Hfailed "ns" "down" (StatusError "ServiceUnavailable" "store unavailable"));
      [|reflexivity].
    vm_compute. do 2 right. left. reflexivity.
  - destruct (string_key_dispatch scripted memory
                (script (ObjString "ns/A", false) conflict) "ns/A" eq_refl)
      as (_ & _ & Hfound & _).
    destruct (Hfound "ns" "A" eq_refl) as (answer & Hlookup & Hcase).
    vm_compute in Hlookup. injection Hlookup as <-.
    destruct Hcase as (res & Hcalls & Hqueue).
    pose proof Hcalls as Hres. vm_compute in Hres. injection Hres as <-.
    split; [exact Hcalls | exact Hqueue].
  - destruct (string_key_dispatch scripted memory
                (script (ObjString "ns/A", false) succeed) "ns/A" eq_refl)
      as (_ & _ & Hfound & _).
    destruct (Hfound "ns" "A" eq_refl) as (answer & Hlookup & Hcase).
    vm_compute in Hlookup. injection Hlookup as <-.
    destruct Hcase as (res & Hcalls & Hqueue).
    pose proof Hcalls as Hres. vm_compute in Hres. injection Hres as <-.
    exact Hqueue.
Defined.

(** C3, on an example: the snapshot at address 1 is dispatched while the
    cluster control fails; the key is forgotten all the same. *)
Lemma snapshot_key_dispatch_witness :
  queue_ops (trace_of (run scripted processNextWorkItem memory
                         (script (ObjCluster 1%positive, false) conflict))) =
    [EGet (ObjCluster 1%positive) false; EForget (ObjCluster 1%positive); EDone (ObjCluster 1%positive)] /\
  DeletionTimestamp
    (Meta (heap_of (run scripted processNextWorkItem memory
                      (script (ObjCluster 1%positive, false) conflict)) 1%positive)) <> None.
Proof.
  destruct (snapshot_key_dispatch scripted memory
              (script (ObjCluster 1%positive, false) conflict) 1%positive eq_refl)
    as (t & res & Hstamp & _ & Hheap & _ & Hqueue & _).
  split; [exact Hqueue|].
  rewrite Hheap, Hstamp. discriminate.
Defined.

(** C9, on an example: a tombstone is marked done and nothing else. *)
Lemma other_key_discarded_witness :
  trace_of (run scripted processNextWorkItem memory
              (script (ObjTombstone "ns/A" (ObjCluster 1%positive), false) succeed)) =
    [EGet (ObjTombstone "ns/A" (ObjCluster 1%positive)) false;
     EDone (ObjTombstone "ns/A" (ObjCluster 1%positive))].
Proof.
  refine (proj1 (proj2
    (other_key_discarded scripted memory
       (script (ObjTombstone "ns/A" (ObjCluster 1%positive), false) succeed)
       (ObjTombstone "ns/A" (ObjCluster 1%positive)) eq_refl _ _)));
    discriminate.
Defined.

(** C7, on an example: ns/bad has no version, the validator rejects it, and
    [sync] hands it to the cluster control. *)
Lemma sync_invokes_strategy_unvalidated_witness :
  Validator.verifyElasticsearchCluster cluster_bad =
    Validator.Returns (Some Validator.version_missing) /\
  strategy_calls (trace_of (run scripted (sync "ns/bad") memory
                              (script (ObjString "ns/bad", false) succeed))) =
    [ESync 2%positive cluster_bad None].
Proof.
  split; [reflexivity|].
  assert (Hin : In (ELookup "ns" "bad" (inl 2%positive))
                   (trace_of (run scripted (sync "ns/bad") memory
                                (script (ObjString "ns/bad", false) succeed)))).
  { vm_compute. right. left. reflexivity. }
  destruct (sync_invokes_strategy_unvalidated scripted "ns/bad" memory
              (script (ObjString "ns/bad", false) succeed) "ns" "bad" 2%positive
              Hin (Validator.Returns (Some Validator.version_missing)) eq_refl)
    as (res & Hcalls & Hres).
  rewrite Hcalls, <- Hres. reflexivity.
Defined.

(** C6, on an example: a deployment controlled by cluster A of namespace ns
    is deleted; the key ns/A is enqueued. *)
Lemma subordinate_event_routing_witness :
  queue_ops (trace_of (run scripted
                         (DeleteFunc (NewElasticsearch deployInformer)
                                     (ObjDeployment (owned_by "A" "A-data" "replicas: 3")))
                         memory (script (ObjString "ns/A", false) succeed))) =
    [EAdd (ObjString "ns/A")].
Proof.
  pose proof (subordinate_event_routing scripted deployInformer
                (ObjDeployment (owned_by "A" "A-data" "replicas: 3")) memory
                (script (ObjString "ns/A", false) succeed)) as H.
  cbv zeta in H.
  destruct H as (Hdelete & _ & _ & _ & Hmanaged); [discriminate|].
  rewrite Hdelete.
  destruct (Hmanaged (owned_by "A" "A-data" "replicas: 3")
              {| ownerKind := "ElasticsearchCluster"; ownerName := "A";
                 ownerController := Some true |} eq_refl eq_refl)
    as (_ & _ & Hfound).
  apply (Hfound 1%positive); [|reflexivity].
  vm_compute. right. left. reflexivity.
Defined.

(** C5, on examples: an update that changes nothing enqueues nothing; an
    update that changes the deployment asks the lister for the owner and
    enqueues the owner's key. *)
Lemma update_events_filtered_witness :
  trace_of (run scripted
              (UpdateFunc (NewElasticsearch deployInformer)
                          (ObjDeployment (owned_by "A" "A-data" "replicas: 3"))
                          (ObjDeployment (owned_by "A" "A-data" "replicas: 3")))
              memory (script (ObjString "ns/A", false) succeed)) = [] /\
  queue_ops (trace_of (run scripted
              (UpdateFunc (NewElasticsearch deployInformer)
                          (ObjDeployment (owned_by "A" "A-data" "replicas: 3"))
                          (ObjDeployment (owned_by "A" "A-data" "replicas: 5")))
              memory (script (ObjString "ns/A", false) succeed))) =
    [EAdd (ObjString "ns/A")].
Proof.
  split.
  - apply (proj1 (update_events_filtered scripted deployInformer
             (ObjDeployment (owned_by "A" "A-data" "replicas: 3"))
             (ObjDeployment (owned_by "A" "A-data" "replicas: 3"))
             memory (script (ObjString "ns/A", false) succeed))).
    reflexivity.
  - pose proof (proj2 (update_events_filtered scripted deployInformer
             (ObjDeployment (owned_by "A" "A-data" "replicas: 3"))
             (ObjDeployment (owned_by "A" "A-data" "replicas: 5"))
             memory (script (ObjString "ns/A", false) succeed)) eq_refl) as H.
    cbv zeta in H.
    destruct H as (_ & _ & _ & _ & Hsub & _).
    destruct Hsub as (_ & _ & Hmanaged); [discriminate|].
    destruct (Hmanaged (owned_by "A" "A-data" "replicas: 5")
                {| ownerKind := "ElasticsearchCluster"; ownerName := "A";
                   ownerController := Some true |} eq_refl eq_refl)
      as (_ & _ & Hfound).
    apply (Hfound 1%positive); [|reflexivity].
    vm_compute. right. left. reflexivity.
Defined.

End Examples.
End ControllerFacts.

(** * The queue protocol, memory and the handlers *)

Module ProtocolFacts.
Import Controller.

Section Protocol.
Context {imports : Imports} {S : Type} (env : Environment S).

#[local] Arguments sync : simpl never.

Lemma gets_app (tr tr' : list Event) : gets (tr ++ tr') = gets tr ++ gets tr'.
Proof. apply flat_map_app. Qed.

Lemma dones_app (tr tr' : list Event) : dones (tr ++ tr') = dones tr ++ dones tr'.
Proof. apply flat_map_app. Qed.

Lemma items_app (got got' : list (Object * bool)) :
  items (got ++ got') = items got ++ items got'.
Proof. unfold items. now rewrite List.filter_app, map_app. Qed.

Lemma process_item_runs (h : Heap) (s : S) :
  let out := run env processNextWorkItem h s in
  let tr := trace_of out in
  exists (key : Object) (quit : bool) (settle : list Event),
    head tr = Some (EGet key quit) /\
    result_of out = negb quit /\
    gets tr = [(key, quit)] /\
    dones tr = (if quit then [] else [key]) /\
    queue_ops tr = EGet key quit :: (if quit then [] else settle ++ [EDone key]) /\
    settled key settle /\
    list.last tr = Some (if quit then EGet key true else EDone key) /\
    (if quit then tr = [EGet key true] /\ heap_of out = h
     else stamped_or_same key h (heap_of out)).
Proof.
  intros out tr.
  destruct (env _ queue_Get h s) as [[key quit] s0] eqn:Hget.
  assert (Hhead : head tr = Some (EGet key quit)).
  { subst tr out. unfold processNextWorkItem. cbn. now rewrite Hget. }
  exists key, quit.
  destruct quit.
  { exists []. subst tr out. unfold processNextWorkItem in *. cbn in *.
    rewrite Hget. cbn. repeat split; unfold settled; auto. }
  destruct key as [k|es|r|r|r|r|k o].
  - destruct (ControllerFacts.dispatch_string_key env h s k Hhead)
      as (t0 & t1 & body & res & Hpath & Hres & Hheap & Htrace).
    fold out in Hres, Hheap, Htrace. fold tr in Htrace.
    exists (match res with
            | Some _ => [EAddRateLimited (ObjString k)]
            | None => [EForget (ObjString k)]
            end).
    rewrite Hres, Hheap, Htrace.
    sync_cases Hpath; unfold settled, stamped_or_same; repeat split; auto.
  - exists [EForget (ObjCluster es)].
    subst tr out. unfold processNextWorkItem in *. cbn in *.
    rewrite Hget. cbn.
    set (t := fst (env _ time_Now h s0)).
    set (h' := heap_update es (with_DeletionTimestamp t (h es)) h).
    destruct (fst (env _ (SyncElasticsearchCluster es) h' _)); cbn;
      unfold settled, stamped_or_same; repeat split; auto;
      right; exists es, t; split; reflexivity.
  - exists []. subst tr out. unfold processNextWorkItem in *. cbn in *.
    rewrite Hget. cbn. unfold settled, stamped_or_same. repeat split; auto.
  - exists []. subst tr out. unfold processNextWorkItem in *. cbn in *.
    rewrite Hget. cbn. unfold settled, stamped_or_same. repeat split; auto.
  - exists []. subst tr out. unfold processNextWorkItem in *. cbn in *.
    rewrite Hget. cbn. unfold settled, stamped_or_same. repeat split; auto.
  - exists []. subst tr out. unfold processNextWorkItem in *. cbn in *.
    rewrite Hget. cbn. unfold settled, stamped_or_same. repeat split; auto.
  - exists []. subst tr out. unfold processNextWorkItem in *. cbn in *.
    rewrite Hget. cbn. unfold settled, stamped_or_same. repeat split; auto.
Qed.

(** X2.  One turn of the dispatcher asks the queue once.  On the shutdown
    signal it returns false and calls nothing more, not even [Done].
    Otherwise it returns true, and its calls on the queue are the [Get], at
    most one of [Forget] and [AddRateLimited], on the key it got, and one
    [Done] on that key, which is its last call of all; it never calls [Add]
    or [ShutDown]. *)
Theorem work_item_protocol (h : Heap) (s : S) :
  let out := run env processNextWorkItem h s in
  let tr := trace_of out in
  exists (key : Object) (quit : bool) (settle : list Event),
    gets tr = [(key, quit)] /\
    result_of out = negb quit /\
    settled key settle /\
    (if quit then tr = [EGet key true]
     else queue_ops tr = EGet key false :: settle ++ [EDone key] /\
          list.last tr = Some (EDone key)).
Proof.
  intros out tr.
  destruct (process_item_runs h s)
    as (key & quit & settle & _ & Hres & Hgets & _ & Hqueue & Hsettle & Hlast & Hrest).
  exists key, quit, settle. fold out in Hres. fold tr in Hgets, Hqueue, Hlast, Hrest.
  repeat split; try assumption.
  destruct quit; [apply Hrest | now split].
Qed.

(** ** [worker] *)

Lemma stamped_only_stamped (key : Object) (h h' : Heap) :
  stamped_or_same key h h' -> only_stamped [key] h h'.
Proof.
  intros [->|(es & t & -> & ->)] q; [now left|].
  unfold heap_update. destruct (Pos.eqb_spec q es) as [->|Hne]; [|now left].
  right. split; [now left | now exists t].
Qed.

Lemma only_stamped_trans (keys keys' : list Object) (h h' h'' : Heap) :
  only_stamped keys h h' -> only_stamped keys' h' h'' ->
  only_stamped (keys ++ keys') h h''.
Proof.
  intros H1 H2 q.
  destruct (H2 q) as [-> | (Hin2 & t2 & ->)];
    destruct (H1 q) as [-> | (Hin1 & t1 & ->)].
  - now left.
  - right. split; [apply in_or_app; now left | now exists t1].
  - right. split; [apply in_or_app; now right | now exists t2].
  - right. split; [apply in_or_app; now right | now exists t2].
Qed.

Lemma worker_loop_runs (fuel : nat) (h : Heap) (s : S) :
  let out := run env (worker_loop fuel) h s in
  let tr := trace_of out in
  dones tr = items (gets tr) /\
  only_stamped (items (gets tr)) h (heap_of out) /\
  (if result_of out
   then exists keys key,
       gets tr = map (fun k => (k, false)) keys ++ [(key, true)] /\
       length keys < fuel /\ list.last tr = Some (EGet key true)
   else gets tr = map (fun k => (k, false)) (items (gets tr)) /\
        length (gets tr) = fuel).
Proof.
  revert h s. induction fuel as [|fuel IH]; intros h s.
  { cbn. repeat split. now left. }
  cbn [worker_loop]. rewrite ControllerFacts.run_bind.
  destruct (process_item_runs h s)
    as (key & quit & settle & _ & Hres & Hgets & Hdones & _ & _ & Hlast & Hrest).
  set (item := run env processNextWorkItem h s) in *. clearbody item.
  cbn zeta. rewrite Hres.
  destruct quit; cbn [negb].
  - destruct Hrest as [Htr Hheap]. cbn. rewrite Htr, Hheap. cbn.
    repeat split; [now left|].
    exists [], key. repeat split. cbn. lia.
  - cbn -[items gets dones]. rewrite gets_app, dones_app, Hgets, Hdones.
    set (s1 := snd (env _ (logrus InfoLevel "processed work item") _ _)).
    specialize (IH (heap_of item) s1).
    set (rest := run env (worker_loop fuel) (heap_of item) s1) in *.
    cbn zeta in IH. destruct IH as (IHdones & IHheap & IHend).
    change (dones (ELog InfoLevel "processed work item" :: trace_of rest))
      with (dones (trace_of rest)).
    change (gets (ELog InfoLevel "processed work item" :: trace_of rest))
      with (gets (trace_of rest)).
    assert (Hitems : items ([(key, false)] ++ gets (trace_of rest)) =
                     [key] ++ items (gets (trace_of rest))) by reflexivity.
    rewrite Hitems, IHdones.
    split; [reflexivity|].
    split.
    { eapply only_stamped_trans; [|exact IHheap]. now apply stamped_only_stamped. }
    destruct (result_of rest).
    + destruct IHend as (keys & key' & Hg & Hlen & Hl).
      exists (key :: keys), key'. rewrite Hg.
      split; [reflexivity|]. split; [cbn; lia|].
      destruct (trace_of rest) as [|e tr'] eqn:Htr; [discriminate Hl|].
      rewrite last_app. now rewrite last_cons_cons, Hl.
    + destruct IHend as (Hg & Hlen). cbn.
      split; [now rewrite <- Hg | now rewrite Hlen].
Qed.

Lemma stamp_keeps (t : Time) (c : ElasticsearchCluster) :
  Spec (with_DeletionTimestamp t c) = Spec c /\
  Name (Meta (with_DeletionTimestamp t c)) = Name (Meta c) /\
  Namespace (Meta (with_DeletionTimestamp t c)) = Namespace (Meta c) /\
  OwnerReferences (Meta (with_DeletionTimestamp t c)) = OwnerReferences (Meta c).
Proof. repeat split. Qed.

(** X3.  A worker keeps the contract of the queue.  Whatever the queue hands
    out and whatever the collaborators answer, the keys it marks done are
    the keys it was handed, in the same order, each once.  The loop ends at
    the first shutdown signal and not before; the worker then logs its exit
    as its last call. *)
Theorem worker_marks_every_item_done (fuel : nat) (h : Heap) (s : S) :
  let out := run env (worker fuel) h s in
  let tr := trace_of out in
  head tr = Some (ELog InfoLevel "start worker loop") /\
  dones tr = items (gets tr) /\
  (if result_of out
   then exists keys key,
       gets tr = map (fun k => (k, false)) keys ++ [(key, true)] /\
       length keys < fuel /\
       list.last tr = Some (ELog InfoLevel "exiting worker loop")
   else gets tr = map (fun k => (k, false)) (items (gets tr)) /\
        length (gets tr) = fuel).
Proof.
  unfold worker. cbn -[worker_loop items gets dones].
  rewrite ControllerFacts.run_bind. cbn -[worker_loop items gets dones].
  set (s0 := snd (env _ (logrus InfoLevel "start worker loop") h s)).
  destruct (worker_loop_runs fuel h s0) as (Hdones & _ & Hend).
  set (loop := run env (worker_loop fuel) h s0) in *. clearbody loop.
  split; [reflexivity|].
  destruct (result_of loop); cbn -[items gets dones].
  - change (dones (ELog InfoLevel "start worker loop" ::
                   trace_of loop ++ [ELog InfoLevel "exiting worker loop"]))
      with (dones (trace_of loop ++ [ELog InfoLevel "exiting worker loop"])).
    change (gets (ELog InfoLevel "start worker loop" ::
                  trace_of loop ++ [ELog InfoLevel "exiting worker loop"]))
      with (gets (trace_of loop ++ [ELog InfoLevel "exiting worker loop"])).
    rewrite dones_app, gets_app, !app_nil_r.
    split; [exact Hdones|].
    destruct Hend as (keys & key & Hg & Hlen & _).
    exists keys, key. repeat split; try assumption.
    change (ELog InfoLevel "start worker loop" ::
            trace_of loop ++ [ELog InfoLevel "exiting worker loop"])
      with ((ELog InfoLevel "start worker loop" :: trace_of loop) ++
            [ELog InfoLevel "exiting worker loop"]).
    apply last_snoc.
  - change (dones (ELog InfoLevel "start worker loop" :: trace_of loop ++ []))
      with (dones (trace_of loop ++ [])).
    change (gets (ELog InfoLevel "start worker loop" :: trace_of loop ++ []))
      with (gets (trace_of loop ++ [])).
    rewrite !app_nil_r. split; [exact Hdones | exact Hend].
Qed.

(** X4.  A worker writes nothing into memory but deletion timestamps, and
    those only into clusters whose pointers it took from the queue as keys:
    every other cluster is as it was, and no cluster's spec, name, namespace
    or owner references ever change. *)
Theorem worker_only_stamps_snapshots (fuel : nat) (h : Heap) (s : S) :
  let out := run env (worker fuel) h s in
  only_stamped (items (gets (trace_of out))) h (heap_of out) /\
  (forall q : loc,
      Spec (heap_of out q) = Spec (h q) /\
      Name (Meta (heap_of out q)) = Name (Meta (h q)) /\
      Namespace (Meta (heap_of out q)) = Namespace (Meta (h q)) /\
      OwnerReferences (Meta (heap_of out q)) = OwnerReferences (Meta (h q))) /\
  (forall q : loc,
      ~ In (ObjCluster q) (items (gets (trace_of out))) -> heap_of out q = h q).
Proof.
  intros out.
  assert (Hstamped : only_stamped (items (gets (trace_of out))) h (heap_of out)).
  { subst out. unfold worker. cbn -[worker_loop items gets].
    rewrite ControllerFacts.run_bind. cbn -[worker_loop items gets].
    set (s0 := snd (env _ (logrus InfoLevel "start worker loop") h s)).
    destruct (worker_loop_runs fuel h s0) as (_ & Hheap & _).
    set (loop := run env (worker_loop fuel) h s0) in *. clearbody loop.
    destruct (result_of loop); cbn -[items gets];
      change (gets (ELog InfoLevel "start worker loop" :: ?tr)) with (gets tr);
      rewrite gets_app, app_nil_r; exact Hheap. }
  split; [exact Hstamped|]. split.
  - intros q. destruct (Hstamped q) as [-> | (_ & t & ->)]; [repeat split|].
    apply stamp_keeps.
  - intros q Hnot. destruct (Hstamped q) as [Heq | (Hin & _)]; [exact Heq|].
    now destruct Hnot.
Qed.

(** ** [sync] *)

(** X5.  [sync] passes errors through unchanged and touches neither the
    queue nor memory.  A key that does not split is returned as that error
    before any lookup; otherwise the lister is asked once, for the namespace
    and name the key splits into.  An error [sync] returns is the very error
    of the split, of the lister (then reported through [HandleError], the
    cluster control not being called) or of the cluster control; nil comes
    from a not-found lookup or from the cluster control.  The deferred log
    closes every way out. *)
Theorem sync_passes_errors_through (key : string) (h : Heap) (s : S) :
  let out := run env (sync key) h s in
  let tr := trace_of out in
  heap_of out = h /\ queue_ops tr = [] /\
  length (strategy_calls tr) <= 1 /\
  (exists t0 t1 body, tr = ENow t0 :: body ++ finished_syncing t1) /\
  (forall err,
      SplitMetaNamespaceKey key = inr err ->
      result_of out = Some err /\ lookups tr = [] /\ strategy_calls tr = []) /\
  (forall namespace name,
      SplitMetaNamespaceKey key = inl (namespace, name) ->
      exists res, lookups tr = [ELookup namespace name res]) /\
  (forall err,
      result_of out = Some err ->
      SplitMetaNamespaceKey key = inr err \/
      (exists namespace name,
          lookups tr = [ELookup namespace name (inr err)] /\
          IsNotFound err = false /\
          In (EHandleError (unable_to_retrieve key err)) tr /\
          strategy_calls tr = []) \/
      (exists es, strategy_calls tr = [ESync es (h es) (Some err)])) /\
  (result_of out = None ->
      (exists namespace name err,
          lookups tr = [ELookup namespace name (inr err)] /\
          IsNotFound err = true /\ strategy_calls tr = []) \/
      (exists es, strategy_calls tr = [ESync es (h es) None])).
Proof.
  intros out tr.
  destruct (ControllerFacts.sync_runs env key h s)
    as (Hheap & t0 & t1 & body & Htrace & Hpath).
  fold out in Hheap, Htrace, Hpath. fold tr in Htrace.
  split; [exact Hheap|]. rewrite Htrace.
  assert (Hclosed : exists t0' t1' body',
             ENow t0 :: body ++ finished_syncing t1 =
             ENow t0' :: body' ++ finished_syncing t1')
    by (now exists t0, t1, body).
  clear Hheap Htrace.
  sync_cases Hpath; cbn;
    (split; [reflexivity|]); (split; [lia|]);
    (split; [exact Hclosed|]);
    (split; [intros err' Hs; try congruence;
             assert (err' = err) by congruence; subst; now repeat split|]);
    (split; [intros ns' n' Hs; try congruence;
             assert (ns' = namespace /\ n' = name) as [-> ->]
               by (split; congruence);
             eexists; reflexivity|]);
    (split; [intros err' Hr; try discriminate Hr; injection Hr as <-
            |intros Hr; try discriminate Hr]).
  - now left.
  - left. now exists namespace, name, err.
  - right. left. exists namespace, name. repeat split; auto.
  - right. right. now exists es.
  - right. now exists es.
Qed.

(** ** The handlers of the five informers *)

Lemma route_only_enqueues (h : Heap) (informer : Informer) (obj : Object)
    (tr : list Event) :
  route h informer obj tr ->
  strategy_calls tr = [] /\ length (lookups tr) <= 1 /\
  (queue_ops tr = [] \/ exists key, queue_ops tr = [EAdd (ObjString key)]).
Proof.
  intros Hroute.
  destruct Hroute; destruct informer; cbn;
    (split; [reflexivity|]); (split; [lia|]);
    solve [now left | right; eexists; reflexivity].
Qed.

(** X6.  The add, update and delete handlers of all five informers only
    ever enqueue.  They leave memory alone, never call the cluster control,
    never call [Forget], [AddRateLimited], [Done] or [ShutDown], ask the
    lister at most once and add at most one key.  The key added is a string,
    except for the delete handler of the cluster informer, which adds the
    object it was given, whatever that is.  The add handler of the cluster
    informer adds the key [KeyFunc] gives and nothing when [KeyFunc] fails;
    the delete handlers of the other informers are their add handlers. *)
Theorem handlers_only_enqueue
    (informer : Informer) (old obj : Object) (h : Heap) (s : S) :
  let handlers := NewElasticsearch informer in
  let add := run env (AddFunc handlers obj) h s in
  let update := run env (UpdateFunc handlers old obj) h s in
  let delete := run env (DeleteFunc handlers obj) h s in
  only_enqueues h add /\ only_enqueues h update /\ only_enqueues h delete /\
  (forall key,
      In (EAdd key) (trace_of add) \/ In (EAdd key) (trace_of update) ->
      exists k, key = ObjString k) /\
  (if decide (informer = esInformer)
   then trace_of delete = [EAdd obj] /\
        queue_ops (trace_of add) =
          match KeyFunc h obj with
          | inl key => [EAdd (ObjString key)]
          | inr _ => []
          end
   else delete = add).
Proof.
  intros handlers add update delete.
  assert (Hadd : only_enqueues h add /\
                 (queue_ops (trace_of add) = [] \/
                  exists key, queue_ops (trace_of add) = [EAdd (ObjString key)])).
  { destruct (decide (informer = esInformer)) as [->|Hsub].
    - subst add handlers. cbn.
      destruct (KeyFunc h obj) as [key|err]; cbn; unfold only_enqueues; cbn;
        repeat split; auto; right; now exists key + now exists (ObjString key).
    - destruct (ControllerFacts.handler_routes env informer obj h s Hsub)
        as [Hheap Hroute].
      fold handlers in Hheap, Hroute. fold add in Hheap, Hroute.
      destruct (route_only_enqueues _ _ _ _ Hroute) as (Hs & Hl & Hq).
      split; [|exact Hq].
      unfold only_enqueues. repeat split; auto.
      destruct Hq as [Hq|[key Hq]]; [now left | right; now exists (ObjString key)]. }
  destruct Hadd as [Hadd Hkeys].
  assert (Hupdate : update = mkOutcome tt h s [] \/ update = add).
  { subst update add handlers. destruct informer; cbn;
      destruct (DeepEqual h old obj); auto. }
  assert (Hstring : forall out : Outcome S unit,
             (queue_ops (trace_of out) = [] \/
              exists key, queue_ops (trace_of out) = [EAdd (ObjString key)]) ->
             forall key, In (EAdd key) (trace_of out) -> exists k, key = ObjString k).
  { intros out Hq key Hin.
    assert (Hin' : In (EAdd key) (queue_ops (trace_of out))).
    { apply filter_In. now split. }
    destruct Hq as [Hq|[k Hq]]; rewrite Hq in Hin'; in_trace Hin'. now exists k. }
  split; [exact Hadd|].
  split.
  { destruct Hupdate as [->| ->]; [|exact Hadd].
    unfold only_enqueues. cbn. repeat split; auto. }
  split.
  { subst delete handlers. destruct informer; try exact Hadd.
    unfold only_enqueues. cbn. repeat split; auto. right. now exists obj. }
  split.
  { intros key [Hin|Hin]; [now apply (Hstring add)|].
    destruct Hupdate as [Hu|Hu]; rewrite Hu in Hin; [destruct Hin|].
    now apply (Hstring add). }
  subst delete add handlers. destruct informer; try reflexivity.
  cbn. split; [reflexivity|]. now destruct (KeyFunc h obj).
Qed.

(** X8.  The handlers of the deployments, stateful sets, service accounts
    and services do not unwrap a tombstone
    ([cache.DeletedFinalStateUnknown], what an informer delivers for a
    delete it did not see): whatever object the tombstone holds, the event
    is logged as undecodable and nothing is looked up or enqueued, so the
    owner is not reconciled. *)
Theorem tombstones_are_dropped
    (informer : Informer) (key : string) (obj : Object) (h : Heap) (s : S) :
  informer <> esInformer ->
  let out := run env (DeleteFunc (NewElasticsearch informer) (ObjTombstone key obj)) h s in
  trace_of out = [ELog ErrorLevel (decoding_error informer)] /\
  queue_ops (trace_of out) = [] /\ lookups (trace_of out) = [] /\
  heap_of out = h.
Proof.
  intros Hsub. destruct informer; [destruct (Hsub eq_refl) | ..]; repeat split.
Qed.

End Protocol.

(** ** A worker on an example *)

Section Examples.
Import Sample.
#[local] Existing Instance Sample.imports.

(** X3, on an example: a string key, a snapshot and a tombstone are pending;
    the worker takes the three, marks each done and ends on the shutdown
    signal. *)
Lemma worker_marks_every_item_done_witness :
  result_of (run queued (worker 5) memory
               [ObjString "ns/A"; ObjCluster 1%positive;
                ObjTombstone "ns/A" (ObjCluster 1%positive)]) = true /\
  dones (trace_of (run queued (worker 5) memory
                     [ObjString "ns/A"; ObjCluster 1%positive;
                      ObjTombstone "ns/A" (ObjCluster 1%positive)])) =
    [ObjString "ns/A"; ObjCluster 1%positive;
     ObjTombstone "ns/A" (ObjCluster 1%positive)].
Proof.
  split; [reflexivity|].
  rewrite (proj1 (proj2 (worker_marks_every_item_done queued 5 memory
                           [ObjString "ns/A"; ObjCluster 1%positive;
                            ObjTombstone "ns/A" (ObjCluster 1%positive)]))).
  reflexivity.
Defined.

(** X4, on the same example: the snapshot at address 1 gets a deletion
    timestamp, the cluster at address 2 is as it was. *)
Lemma worker_only_stamps_snapshots_witness :
  heap_of (run queued (worker 5) memory
             [ObjString "ns/A"; ObjCluster 1%positive;
              ObjTombstone "ns/A" (ObjCluster 1%positive)]) 2%positive =
    cluster_bad /\
  DeletionTimestamp
    (Meta (heap_of (run queued (worker 5) memory
                      [ObjString "ns/A"; ObjCluster 1%positive;
                       ObjTombstone "ns/A" (ObjCluster 1%positive)]) 1%positive)) =
    Some 1000%Z.
Proof.
  split; [|reflexivity].
  apply (proj2 (proj2 (worker_only_stamps_snapshots queued 5 memory
                         [ObjString "ns/A"; ObjCluster 1%positive;
                          ObjTombstone "ns/A" (ObjCluster 1%positive)]))
           2%positive).
  vm_compute. intros [H|[H|[H|[]]]]; discriminate H.
Defined.

(** X8, on an example: the delete of a deployment controlled by cluster A
    arrives as a tombstone; the key ns/A is not enqueued. *)
Lemma tombstones_are_dropped_witness :
  queue_ops (trace_of (run scripted
                         (DeleteFunc (NewElasticsearch deployInformer)
                            (ObjTombstone "ns/A-data"
                               (ObjDeployment (owned_by "A" "A-data" "replicas: 3"))))
                         memory (script (ObjString "ns/A", false) succeed))) = [].
Proof.
  refine (proj1 (proj2 (tombstones_are_dropped scripted deployInformer "ns/A-data"
                          (ObjDeployment (owned_by "A" "A-data" "replicas: 3"))
                          memory (script (ObjString "ns/A", false) succeed) _))).
  discriminate.
Defined.

End Examples.
End ProtocolFacts.

(** * The validator and the order of a specification *)

Module ValidatorOrder.
Import Validator.

Lemma verifyNodePool_accepts (np : ElasticsearchClusterNodePool) :
  verifyNodePool (Some np) = Returns None <->
  (forall role, In role (Roles np) -> role_ok role) /\
  ~ nonstateful_persistent_pool np.
Proof.
  destruct (verifyNodePool (Some np)) as [[err|]|] eqn:V.
  - assert (R : verifyNodePool (Some np) <> Returns None) by congruence.
    apply ValidatorFacts.verifyNodePool_rejects in R.
    split; [discriminate|]. intros [Hroles Hstate].
    destruct R as [(role & Hin & Hbad)|R]; [destruct Hbad; auto | contradiction].
  - split; [intros _ | reflexivity].
    assert (R : ~ (bad_role_pool np \/ nonstateful_persistent_pool np)).
    { rewrite <- ValidatorFacts.verifyNodePool_rejects. congruence. }
    split; [|tauto].
    intros role Hin. destruct (known_role role) eqn:K.
    + now apply ValidatorFacts.known_role_ok.
    + destruct R. left. exists role. split; [assumption|].
      now apply ValidatorFacts.known_role_not_ok.
  - rewrite ValidatorFacts.verifyNodePool_first in V. discriminate V.
Qed.

Lemma verifyNodePools_accepts (nps : list (option ElasticsearchClusterNodePool)) :
  verifyNodePools nps = Returns None <->
  Forall (fun np => verifyNodePool np = Returns None) nps.
Proof.
  induction nps as [|np rest IH]; cbn [verifyNodePools].
  - split; [constructor | reflexivity].
  - destruct (verifyNodePool np) as [[err|]|] eqn:V.
    + split; [discriminate|]. intros H. inversion H; subst. congruence.
    + rewrite IH. split; [now constructor|]. intros H. now inversion H.
    + split; [discriminate|]. intros H. inversion H; subst. congruence.
Qed.

Lemma same_entry_accepts (np np' : option ElasticsearchClusterNodePool) :
  same_entry np np' ->
  verifyNodePool np = Returns None -> verifyNodePool np' = Returns None.
Proof.
  destruct np as [pool|], np' as [pool'|]; cbn [same_entry]; try contradiction.
  - intros [Hstate Hroles]. rewrite !verifyNodePool_accepts.
    intros [Hok Hnot]. split.
    + intros role Hin. apply Hok. now apply Hroles.
    + intros (st & Hs & Hrest). apply Hnot. exists st.
      split; [congruence | exact Hrest].
  - intros _ H. cbn in H. discriminate H.
Qed.

Lemma same_entry_sym (np np' : option ElasticsearchClusterNodePool) :
  same_entry np np' -> same_entry np' np.
Proof.
  destruct np as [pool|], np' as [pool'|]; cbn [same_entry]; try contradiction;
    [|trivial].
  intros [Hs Hr]. split; [congruence|]. intros role. now rewrite Hr.
Qed.

(** X7.  Whether a cluster is accepted depends on nothing but its version
    being set and its node pools as a collection: the order of the pools,
    the order and repetition of the roles within a pool, and the metadata
    of the cluster do not matter. *)
Theorem acceptance_ignores_order (c c' : ElasticsearchCluster) :
  (Version (Spec c) = "" <-> Version (Spec c') = "") ->
  same_pools (NodePools (Spec c)) (NodePools (Spec c')) ->
  (verifyElasticsearchCluster c = Returns None <->
   verifyElasticsearchCluster c' = Returns None).
Proof.
  intros Hversion (reordered & Hperm & Hsame).
  unfold verifyElasticsearchCluster.
  destruct (String.eqb_spec (Version (Spec c)) "") as [V|V];
    destruct (String.eqb_spec (Version (Spec c')) "") as [V'|V'];
    try tauto.
  rewrite !verifyNodePools_accepts. split; intros Hacc.
  - apply (Permutation_Forall Hperm) in Hacc.
    clear Hperm. induction Hsame as [|np np' l l' Hp _ IH]; [constructor|].
    inversion Hacc; subst. constructor; [now apply (same_entry_accepts np) | auto].
  - apply (Permutation_Forall (Permutation_sym Hperm)).
    clear Hperm. induction Hsame as [|np np' l l' Hp _ IH]; [constructor|].
    inversion Hacc; subst.
    constructor; [apply (same_entry_accepts np'); [now apply same_entry_sym | assumption] | auto].
Qed.

(** X7, on an example: two pools swapped, the roles of one reordered and
    repeated, another name. *)
Lemma acceptance_ignores_order_witness :
  verifyElasticsearchCluster
    (mkCluster (Sample.meta "ns" "B")
       (mkSpec "7.1"
          [Some (mkNodePool ["master"; "data"; "master"] None);
           Some (mkNodePool ["client"]
                   (Some (mkStatefulConfig true (mkPersistence true))))])) =
  Returns None.
Proof.
  apply (acceptance_ignores_order
           (mkCluster (Sample.meta "ns" "A")
              (mkSpec "6.0"
                 [Some (mkNodePool ["client"]
                          (Some (mkStatefulConfig true (mkPersistence true))));
                  Some (mkNodePool ["data"; "master"] None)]))).
  - split; discriminate.
  - exists [Some (mkNodePool ["data"; "master"] None);
            Some (mkNodePool ["client"]
                    (Some (mkStatefulConfig true (mkPersistence true))))].
    split; [apply perm_swap|].
    constructor; [split; [reflexivity | intros role; simpl; tauto]|].
    constructor; [split; [reflexivity | intros role; simpl; tauto]|].
    constructor.
  - reflexivity.
Defined.

End ValidatorOrder.
